(** * r3u-http: the request parser and the response writer of [r3u_http.c]

    A shallow embedding of the core of the server (the functions from
    [service] down to [build_fspath]) and the properties of the
    specification that concern it.

    Conventions of the embedding.
    - A byte is an [ascii]; the input and output streams are lists of bytes.
    - A value of type [cstring] stands for the characters of a C string
      that come before its terminating NUL.  A line buffer filled by
      [fgets] is turned into a [cstring] by [cstr], which stops at the first
      NUL, as every [str*] function of the C library does.
    - [int] is 32 bits wide and [long] is 64 bits wide (Linux, LP64); [atoi]
      and [atol] follow glibc, where both are [strtol] in base 10.
    - [BUFSIZ] is a constant of <stdio.h>; it is a parameter of the
      development.
    - The program runs in the "C" locale ([setlocale] is never called).
    - Allocation ([xmalloc]) and writes to the output stream always succeed;
      the end of the input is the only way a read of the input fails, and a
      file that was opened is read to its end.  The clock ([gmtime]) and the
      file system ([lstat], [open]) are given by a [World] and may fail.
    - The output of a run is what the state holds when the run returns or
      exits: [exit] flushes the streams. *)

From Stdlib Require Import List ZArith Lia Bool Ascii String.
Import ListNotations.
Local Open Scope string_scope.
Local Open Scope list_scope.
Local Open Scope Z_scope.

(** ** Bytes and C strings *)

Definition cstring := list ascii.

Definition chars (s : string) : cstring := list_ascii_of_string s.

Definition code (c : ascii) : Z := Z.of_N (N_of_ascii c).

Definition char_of (z : Z) : ascii := ascii_of_N (Z.to_N z).

Definition is_char (c d : ascii) : bool := Ascii.eqb c d.

Definition NUL : ascii := char_of 0.
Definition LF : ascii := char_of 10.
Definition CR : ascii := char_of 13.
Definition SP : ascii := char_of 32.
Definition HT : ascii := char_of 9.
Definition CRLF : cstring := [CR; LF].

(** The characters of a buffer up to its first NUL. *)
Fixpoint cstr (buf : list ascii) : cstring :=
  match buf with
  | [] => []
  | c :: buf' => if is_char c NUL then [] else c :: cstr buf'
  end.

(** *** <ctype.h>, "C" locale *)

Definition islower (c : ascii) : bool := (97 <=? code c) && (code c <=? 122).
Definition isupper (c : ascii) : bool := (65 <=? code c) && (code c <=? 90).
Definition isdigit (c : ascii) : bool := (48 <=? code c) && (code c <=? 57).
Definition isspace (c : ascii) : bool :=
  (code c =? 32) || ((9 <=? code c) && (code c <=? 13)).
Definition tolower (c : ascii) : ascii :=
  if isupper c then char_of (code c + 32) else c.

(** *** <string.h> *)

Definition strlen (s : cstring) : nat := List.length s.

(** [strchr s c] finds the first [c] in [s]: the characters before it, and
    the string the returned pointer designates (it starts with [c]). *)
Fixpoint strchr (s : cstring) (c : ascii) : option (cstring * cstring) :=
  match s with
  | [] => None
  | x :: s' =>
      if is_char x c then Some ([], s)
      else match strchr s' c with
           | Some (pre, p) => Some (x :: pre, p)
           | None => None
           end
  end.

(** Length of the longest prefix of [s] made of characters of [accept]. *)
Fixpoint strspn (s : cstring) (accept : cstring) : nat :=
  match s with
  | [] => O
  | x :: s' => if existsb (is_char x) accept then S (strspn s' accept) else O
  end.

(** The comparison functions; ISO C fixes the sign of the result only. *)
Fixpoint strcmp (a b : cstring) : Z :=
  match a, b with
  | [], [] => 0
  | [], _ :: _ => -1
  | _ :: _, [] => 1
  | x :: a', y :: b' =>
      if code x =? code y then strcmp a' b' else code x - code y
  end.

Fixpoint strncasecmp (a b : cstring) (n : nat) {struct n} : Z :=
  match n with
  | O => 0
  | S n' =>
      match a, b with
      | [], [] => 0
      | [], _ :: _ => -1
      | _ :: _, [] => 1
      | x :: a', y :: b' =>
          if code (tolower x) =? code (tolower y) then strncasecmp a' b' n'
          else code (tolower x) - code (tolower y)
      end
  end.

Fixpoint strcasecmp (a b : cstring) : Z :=
  match a, b with
  | [], [] => 0
  | [], _ :: _ => -1
  | _ :: _, [] => 1
  | x :: a', y :: b' =>
      if code (tolower x) =? code (tolower y) then strcasecmp a' b'
      else code (tolower x) - code (tolower y)
  end.

(** *** <stdlib.h>: [strtol] in base 10, [atol] and [atoi] *)

Definition LONG_MAX : Z := 2 ^ 63 - 1.
Definition LONG_MIN : Z := - 2 ^ 63.

Fixpoint skip_spaces (s : cstring) : cstring :=
  match s with
  | c :: s' => if isspace c then skip_spaces s' else s
  | [] => []
  end.

(** The value of the longest prefix of decimal digits, on top of [acc]. *)
Fixpoint digits_value (acc : Z) (s : cstring) : Z :=
  match s with
  | c :: s' => if isdigit c then digits_value (acc * 10 + (code c - 48)) s' else acc
  | [] => acc
  end.

(** The subject sequence: an optional sign, then the digits. *)
Definition signed_value (s : cstring) : Z :=
  match s with
  | c :: s' =>
      if is_char c "-"%char then - digits_value 0 s'
      else if is_char c "+"%char then digits_value 0 s'
      else digits_value 0 s
  | [] => 0
  end.

(** Out of range values are clamped to [LONG_MIN] and [LONG_MAX]. *)
Definition strtol (s : cstring) : Z :=
  Z.max LONG_MIN (Z.min LONG_MAX (signed_value (skip_spaces s))).

Definition atol (s : cstring) : Z := strtol s.

(** The conversion of a [long] to [int] keeps the low 32 bits. *)
Definition int_of_long (z : Z) : Z := (z + 2 ^ 31) mod 2 ^ 32 - 2 ^ 31.

Definition atoi (s : cstring) : Z := int_of_long (strtol s).

(** *** <stdio.h>: the conversions [%d] and [%ld] of [printf] *)

Definition digit_char (d : Z) : ascii := char_of (48 + d).

(** The decimal digits of [n], least significant first. *)
Fixpoint rev_digits (fuel : nat) (n : Z) : list ascii :=
  match fuel with
  | O => []
  | S fuel' =>
      digit_char (n mod 10) ::
      (if n <? 10 then [] else rev_digits fuel' (n / 10))
  end.

Definition print_nat (n : Z) : cstring :=
  rev (rev_digits (S (Z.to_nat (Z.log2 n))) n).

Definition print_int (n : Z) : cstring :=
  if n <? 0 then "-"%char :: print_nat (- n) else print_nat n.

(** ** The data model *)

Record HTTPHeaderField := mkField {
  name : cstring;
  value : cstring
}.

(** The [next] pointers of the C list are the tail of a Rocq list; [body]
    is [None] for the NULL pointer. *)
Record HTTPRequest := mkRequest {
  protocol_minor_version : Z;
  method : cstring;
  path : cstring;
  header : list HTTPHeaderField;
  body : option (list ascii);
  length : Z
}.

(** [size] is assigned only when [ok] is set. *)
Record FileInfo := mkFileInfo {
  fi_path : cstring;
  fi_size : option Z;
  ok : bool
}.

Definition SERVER_NAME : cstring := chars "r3u http".
Definition SERVER_VERSION : cstring := chars "0.0.1".
Definition MAX_REQUEST_BODY_LENGTH : Z := 4194304.

(** ** The environment: clock and file system *)

Inductive file_type :=
  S_IFREG | S_IFDIR | S_IFLNK | S_IFCHR | S_IFBLK | S_IFIFO | S_IFSOCK.

Definition S_ISREG (m : file_type) : bool :=
  match m with S_IFREG => true | _ => false end.

Record stat := mkStat {
  st_mode : file_type;
  st_size : Z
}.

(** What a path names.  A regular file has the size that [lstat] reports
    for it, the bytes that reading it delivers, and says whether the server
    may open it for reading.  The size and the bytes are two answers of the
    system to two calls and need not agree: a file of /proc reports the
    size 0, and a file may change between the two calls. *)
Inductive node :=
| regular (size : Z) (contents : list ascii) (readable : bool)
| directory
| symlink (target : cstring)
| char_device
| block_device
| fifo
| socket.

(** [w_date] is the date that [strftime] formats from the clock, [None]
    when [gmtime] fails; [w_fs] tells what each path names, [None] when it
    names nothing. *)
Record World := mkWorld {
  w_date : option cstring;
  w_fs : cstring -> option node
}.

(** [lstat] does not follow a symbolic link: it reports the link itself. *)
Definition lstat (w : World) (p : cstring) : option stat :=
  match w_fs w p with
  | None => None
  | Some (regular size _ _) => Some (mkStat S_IFREG size)
  | Some directory => Some (mkStat S_IFDIR 0)
  | Some (symlink t) => Some (mkStat S_IFLNK (Z.of_nat (List.length t)))
  | Some char_device => Some (mkStat S_IFCHR 0)
  | Some block_device => Some (mkStat S_IFBLK 0)
  | Some fifo => Some (mkStat S_IFIFO 0)
  | Some socket => Some (mkStat S_IFSOCK 0)
  end.

(** [open(p, O_RDONLY)], as far as the server uses it: on a path that
    [lstat] reported as a regular file. *)
Definition open (w : World) (p : cstring) : option (list ascii) :=
  match w_fs w p with
  | Some (regular _ c true) => Some c
  | _ => None
  end.

(** ** The state of a run and its outcomes *)

Inductive syscall :=
| sys_lstat (p : cstring)
| sys_open (p : cstring).

(** The unread input, the bytes written to the output so far, and the
    file-system calls made so far (latest first). *)
Record state := mkState {
  st_in : list ascii;
  st_out : list ascii;
  st_calls : list syscall
}.

(** One constructor for each call of [log_exit] in the core. *)
Inductive fatal :=
| no_request_line
| parse_error_on_request_line_1 (buf : cstring)
| parse_error_on_request_line_2 (buf : cstring)
| parse_error_on_request_line_3 (buf : cstring)
| failed_to_read_request_header_field
| parse_error_on_request_header_field (buf : cstring)
| negative_content_length_value
| request_body_too_long
| failed_to_read_request_body
| gmtime_failed
| failed_to_open (p : cstring).

(** A computation returns, or the process exits through [log_exit]; both
    leave a state behind.  [OutOfFuel] belongs to the model only: the two
    loops of the program are run with a bound on their iterations. *)
Inductive result (A : Type) :=
| Ret (a : A) (s : state)
| Exit (e : fatal) (s : state)
| OutOfFuel.
Arguments Ret {A} a s.
Arguments Exit {A} e s.
Arguments OutOfFuel {A}.

Definition M (A : Type) : Type := state -> result A.

Definition ret {A} (a : A) : M A := fun s => Ret a s.

Definition bind {A B} (m : M A) (k : A -> M B) : M B :=
  fun s =>
    match m s with
    | Ret a s' => k a s'
    | Exit e s' => Exit e s'
    | OutOfFuel => OutOfFuel
    end.

Definition log_exit {A} (e : fatal) : M A := fun s => Exit e s.

Notation "x <- m ;; k" := (bind m (fun x => k))
  (at level 61, m at next level, right associativity).
Notation "m ;;; k" := (bind m (fun _ => k))
  (at level 61, right associativity).

(** *** Stream operations *)

(** At most [n] bytes of the input, up to and including the first newline. *)
Fixpoint read_line (n : nat) (s : list ascii) : list ascii * list ascii :=
  match n, s with
  | S n', c :: s' =>
      if is_char c LF then ([c], s')
      else let (l, r) := read_line n' s' in (c :: l, r)
  | _, _ => ([], s)
  end.

(** [fgets(buf, size, in)]: [None] at the end of the input, else the
    buffer as the C string functions see it. *)
Definition fgets (size : nat) : M (option cstring) :=
  fun s =>
    match st_in s with
    | [] => Ret None s
    | _ :: _ =>
        let (l, r) := read_line (size - 1) (st_in s) in
        Ret (Some (cstr l)) (mkState r (st_out s) (st_calls s))
    end.

(** [fread(ptr, n, 1, in)]: one item of [n] bytes, or none when the input
    ends before. *)
Definition fread (n : nat) : M (option (list ascii)) :=
  fun s =>
    if (List.length (st_in s) <? n)%nat
    then Ret None (mkState [] (st_out s) (st_calls s))
    else Ret (Some (firstn n (st_in s)))
             (mkState (skipn n (st_in s)) (st_out s) (st_calls s)).

Definition wrote (s : state) (b : list ascii) : state :=
  mkState (st_in s) (st_out s ++ b) (st_calls s).

Definition called (s : state) (c : syscall) : state :=
  mkState (st_in s) (st_out s) (c :: st_calls s).

(** [fprintf], [fwrite]: the bytes are appended to the output. *)
Definition fwrite (b : list ascii) : M unit := fun s => Ret tt (wrote s b).

(** A call of the file system is recorded. *)
Definition call (c : syscall) : M unit := fun s => Ret tt (called s c).

(** ** The program *)

Section Server.

(** The size of the line buffers, [char buf[BUFSIZ]]. *)
Variable BUFSIZ : nat.

Variable w : World.

(** The loop visits every index below [strlen(str)]; a lower-case letter
    becomes a letter, never NUL, so the length stays what it was. *)
Definition uppcase (str : cstring) : cstring :=
  map (fun c => if islower c then char_of (code c + (65 - 97)) else c) str.

Definition read_request_line (req : HTTPRequest) : M HTTPRequest :=
  line <- fgets BUFSIZ ;;
  match line with
  | None => log_exit no_request_line
  | Some buf =>
      match strchr buf SP with
      | None => log_exit (parse_error_on_request_line_1 buf)
      | Some (buf, p) =>
          let p := tl p in
          let method := uppcase buf in
          let path := p in
          match strchr path SP with
          | None => log_exit (parse_error_on_request_line_2 buf)
          | Some (path, p) =>
              let p := tl p in
              if negb (strncasecmp p (chars "HTTP/1.") (strlen (chars "HTTP/1.")) =? 0)
              then log_exit (parse_error_on_request_line_3 buf)
              else
                let p := skipn (strlen (chars "HTTP/1.")) p in
                ret (mkRequest (atoi p) method path
                               (header req) (body req) (length req))
          end
      end
  end.

(** [None] is the NULL that ends the header block. *)
Definition read_header_field : M (option HTTPHeaderField) :=
  line <- fgets BUFSIZ ;;
  match line with
  | None => log_exit failed_to_read_request_header_field
  | Some buf =>
      if (strcmp buf [LF] =? 0) || (strcmp buf CRLF =? 0) then ret None
      else
        match strchr buf ":"%char with
        | None => log_exit (parse_error_on_request_header_field buf)
        | Some (buf, p) =>
            let p := tl p in
            let p := skipn (strspn p [SP; HT]) p in
            ret (Some (mkField buf p))
        end
  end.

Fixpoint lookup_header_field_value (h : list HTTPHeaderField) (name' : cstring)
  : option cstring :=
  match h with
  | [] => None
  | f :: next =>
      if strcasecmp (name f) name' =? 0 then Some (value f)
      else lookup_header_field_value next name'
  end.

Definition content_length (req : HTTPRequest) : M Z :=
  match lookup_header_field_value (header req) (chars "Content-Length") with
  | None => ret 0
  | Some val =>
      let len := atol val in
      if len <? 0 then log_exit negative_content_length_value
      else ret len
  end.

(** The loop [while ((h = read_header_field(in)))] of [read_request]. *)
Fixpoint read_header_fields (fuel : nat) (hd : list HTTPHeaderField)
  : M (list HTTPHeaderField) :=
  match fuel with
  | O => fun _ => OutOfFuel
  | S fuel' =>
      h <- read_header_field ;;
      match h with
      | None => ret hd
      | Some h => read_header_fields fuel' (h :: hd)
      end
  end.

(** Every turn of the loop that goes on consumes input, so one turn more
    than there are bytes is enough (lemma [read_header_fields_fuel]). *)
Definition read_headers : M (list HTTPHeaderField) :=
  fun s => read_header_fields (S (List.length (st_in s))) [] s.

Definition request0 : HTTPRequest := mkRequest 0 [] [] [] None 0.

Definition read_request : M HTTPRequest :=
  req <- read_request_line request0 ;;
  hd <- read_headers ;;
  let req := mkRequest (protocol_minor_version req) (method req) (path req)
                       hd (body req) (length req) in
  len <- content_length req ;;
  let req := mkRequest (protocol_minor_version req) (method req) (path req)
                       (header req) (body req) len in
  if negb (length req =? 0) then
    if length req >? MAX_REQUEST_BODY_LENGTH then log_exit request_body_too_long
    else
      b <- fread (Z.to_nat (length req)) ;;
      match b with
      | None => log_exit failed_to_read_request_body
      | Some b =>
          ret (mkRequest (protocol_minor_version req) (method req) (path req)
                         (header req) (Some b) (length req))
      end
  else
    ret (mkRequest (protocol_minor_version req) (method req) (path req)
                   (header req) None (length req)).

Definition build_fspath (docroot urlpath : cstring) : cstring :=
  docroot ++ chars "/" ++ urlpath.

Definition get_fileinfo (docroot urlpath : cstring) : M FileInfo :=
  let p := build_fspath docroot urlpath in
  call (sys_lstat p) ;;;
  match lstat w p with
  | None => ret (mkFileInfo p None false)
  | Some st =>
      if negb (S_ISREG (st_mode st)) then ret (mkFileInfo p None false)
      else ret (mkFileInfo p (Some (st_size st)) true)
  end.

Definition guess_content_type (info : FileInfo) : cstring := chars "text/plain".

Definition output_common_header_fields (req : HTTPRequest) (status : cstring)
  : M unit :=
  match w_date w with
  | None => log_exit gmtime_failed
  | Some buf =>
      fwrite (chars "HTTP/1." ++ print_int (protocol_minor_version req)
              ++ chars " " ++ status ++ CRLF) ;;;
      fwrite (chars "Date: " ++ buf ++ CRLF) ;;;
      fwrite (chars "Server: " ++ SERVER_NAME ++ chars "/" ++ SERVER_VERSION ++ CRLF) ;;;
      fwrite (chars "Connection: close" ++ CRLF)
  end.

Definition method_not_allowed (req : HTTPRequest) : M unit :=
  output_common_header_fields req (chars "405 Method Not Allowed").

Definition not_implemented (req : HTTPRequest) : M unit :=
  output_common_header_fields req (chars "501 Not Implemented").

Definition not_found (req : HTTPRequest) : M unit :=
  output_common_header_fields req (chars "404 Not Found").

(** The loop that copies the file: [file] is what is left of it after the
    file offset; [read] delivers at most [BUFSIZ] bytes at a time. *)
Fixpoint copy_file (fuel : nat) (file : list ascii) : M unit :=
  match fuel with
  | O => fun _ => OutOfFuel
  | S fuel' =>
      let n := Nat.min BUFSIZ (List.length file) in
      if (n =? 0)%nat then ret tt
      else fwrite (firstn n file) ;;; copy_file fuel' (skipn n file)
  end.

Definition do_file_response (req : HTTPRequest) (docroot : cstring) : M unit :=
  info <- get_fileinfo docroot (path req) ;;
  if negb (ok info) then not_found req
  else
    output_common_header_fields req (chars "200 OK") ;;;
    fwrite (chars "Content-Length: "
            ++ print_int (match fi_size info with Some n => n | None => 0 end)
            ++ CRLF) ;;;
    fwrite (chars "Content-Type: " ++ guess_content_type info ++ CRLF) ;;;
    fwrite CRLF ;;;
    if negb (strcmp (method req) (chars "HEAD") =? 0) then
      call (sys_open (fi_path info)) ;;;
      match open w (fi_path info) with
      | None => log_exit (failed_to_open (fi_path info))
      | Some file => copy_file (S (List.length file)) file
      end
    else ret tt.

Definition respond_to (req : HTTPRequest) (docroot : cstring) : M unit :=
  if strcmp (method req) (chars "GET") =? 0 then do_file_response req docroot
  else if strcmp (method req) (chars "HEAD") =? 0 then do_file_response req docroot
  else if strcmp (method req) (chars "POST") =? 0 then method_not_allowed req
  else not_implemented req.

(** [free_request], like [free_fileinfo] above, gives memory back and has
    no counterpart here. *)
Definition service (docroot : cstring) : M unit :=
  req <- read_request ;;
  respond_to req docroot.

End Server.

(** The value of [BUFSIZ] in glibc, for the concrete runs. *)
Definition glibc_BUFSIZ : nat := Z.to_nat 8192.

(** A run of the server on the bytes [input]. *)
Definition start (input : list ascii) : state := mkState input [] [].

(** ** Vocabulary of the statements *)

(** The state a run ends in, whether it returned or exited. *)
Definition final {A} (r : result A) : option state :=
  match r with
  | Ret _ s => Some s
  | Exit _ s => Some s
  | OutOfFuel => None
  end.

Definition status_line (minor : Z) (status : cstring) : list ascii :=
  chars "HTTP/1." ++ print_int minor ++ chars " " ++ status ++ CRLF.

(** The status line, then [Date], [Server] and [Connection: close]. *)
Definition common_header_fields (minor : Z) (status date : cstring)
  : list ascii :=
  status_line minor status
  ++ chars "Date: " ++ date ++ CRLF
  ++ chars "Server: " ++ SERVER_NAME ++ chars "/" ++ SERVER_VERSION ++ CRLF
  ++ chars "Connection: close" ++ CRLF.

(** The header block of a 200 response. *)
Definition ok_header_block (minor size : Z) (date : cstring) : list ascii :=
  common_header_fields minor (chars "200 OK") date
  ++ chars "Content-Length: " ++ print_int size ++ CRLF
  ++ chars "Content-Type: " ++ chars "text/plain" ++ CRLF
  ++ CRLF.

(** [b] ends with the empty line that closes a header block. *)
Definition ends_with_blank_line (b : list ascii) : bool :=
  match rev b with
  | l2 :: c2 :: l1 :: c1 :: _ =>
      is_char l2 LF && is_char c2 CR && is_char l1 LF && is_char c1 CR
  | _ => false
  end.

(** ASCII upper-casing, by the bits: a lower-case letter loses bit 5. *)
Definition ascii_upper (c : ascii) : ascii :=
  match c with
  | Ascii b0 b1 b2 b3 b4 b5 b6 b7 =>
      if islower c then Ascii b0 b1 b2 b3 b4 false b6 b7 else c
  end.

Definition consumed (s : state) (rest : list ascii) : state :=
  mkState rest (st_out s) (st_calls s).

(** No numeral leads [s]: after the white space and an optional sign there
    is no digit. *)
Definition no_numeral (s : cstring) : bool :=
  match skip_spaces s with
  | [] => true
  | c :: s' =>
      if is_char c "-"%char || is_char c "+"%char
      then match s' with [] => true | d :: _ => negb (isdigit d) end
      else negb (isdigit c)
  end.

Definition digit_step (x : Z) (c : ascii) : Z := x * 10 + (code c - 48).

(** A token of the request line holds no space, and no NUL or newline. *)
Definition token (t : list ascii) : Prop :=
  ~ In SP t /\ ~ In NUL t /\ ~ In LF t.

(** Text within a line holds no NUL and no newline. *)
Definition text (t : list ascii) : Prop := ~ In NUL t /\ ~ In LF t.

Definition exits {A} (r : result A) : Prop := exists e s, r = Exit e s.

(** [m] leaves the output and the record of calls alone, and what it takes
    from the input it takes from the front. *)
Definition reads_only {A} (m : M A) : Prop :=
  forall s,
    match m s with
    | Ret _ s' | Exit _ s' =>
        st_out s' = st_out s /\ st_calls s' = st_calls s
        /\ exists l, st_in s = l ++ st_in s'
    | OutOfFuel => True
    end.

Definition body_bytes (req : HTTPRequest) : list ascii :=
  match body req with Some b => b | None => [] end.

(** The field a header line stands for, in the words of the specification:
    the line is split on its first colon into name and value, and the value
    loses its leading spaces and tabs. *)
Fixpoint split_at_colon (l : list ascii) : list ascii * list ascii :=
  match l with
  | [] => ([], [])
  | c :: l' =>
      if is_char c ":"%char then ([], l')
      else let (n, v) := split_at_colon l' in (c :: n, v)
  end.

Fixpoint strip_blanks (v : list ascii) : list ascii :=
  match v with
  | c :: v' => if is_char c SP || is_char c HT then strip_blanks v' else v
  | [] => []
  end.

Definition field_of_line (l : list ascii) : HTTPHeaderField :=
  let (n, v) := split_at_colon l in mkField n (strip_blanks v).

(** A header line on the wire: text with a colon in it, ended by a newline,
    that fits the line buffer. *)
Definition header_line (BUFSIZ : nat) (l : list ascii) : Prop :=
  exists l0, l = l0 ++ [LF] /\ text l0 /\ In ":"%char l0
             /\ (List.length l < BUFSIZ)%nat.

(** The fields of a header block in the order in which they are read off
    the wire, up to the empty line. *)
Inductive arrival (BUFSIZ : nat)
  : state -> list HTTPHeaderField -> state -> Prop :=
| arrival_end s s' :
    read_header_field BUFSIZ s = Ret None s' -> arrival BUFSIZ s [] s'
| arrival_field s f s1 fs s' :
    read_header_field BUFSIZ s = Ret (Some f) s1 ->
    arrival BUFSIZ s1 fs s' ->
    arrival BUFSIZ s (f :: fs) s'.

(** A newline occurs in [l] at its last place only. *)
Fixpoint lf_only_last (l : list ascii) : bool :=
  match l with
  | [] => true
  | c :: l' =>
      if is_char c LF then match l' with [] => true | _ :: _ => false end
      else lf_only_last l'
  end.

(** The four status texts the server knows. *)
Definition statuses : list cstring :=
  [chars "200 OK"; chars "404 Not Found"; chars "405 Method Not Allowed";
   chars "501 Not Implemented"].

(** ** The entry point

    [main] of the program that serves one request on its standard streams.
    [argv] holds the [argc] arguments, the name of the program first. *)

Definition S_ISDIR (m : file_type) : bool :=
  match m with S_IFDIR => true | _ => false end.

(** How [main] ends: with the usage line, with one of its two calls of
    [log_exit], or with the run of [service]. *)
Inductive ending :=
| usage
| docroot_lstat_failed
| docroot_is_not_a_directory (docroot : cstring)
| served (r : result unit).

Definition main (BUFSIZ : nat) (w : World) (argv : list cstring) (s : state)
  : ending :=
  match argv with
  | [_; docroot] =>
      match lstat w docroot with
      | None => docroot_lstat_failed
      | Some fi =>
          if negb (S_ISDIR (st_mode fi)) then docroot_is_not_a_directory docroot
          else served (service BUFSIZ w docroot (called s (sys_lstat docroot)))
      end
  | _ => usage
  end.

(** The status the process exits with: [exit(0)] ends [main] after
    [service] has returned, every other way out is [exit(1)]. *)
Definition exit_status (e : ending) : option Z :=
  match e with
  | served (Ret _ _) => Some 0
  | served OutOfFuel => None
  | _ => Some 1
  end.

(** [m] leaves the input alone, adds to the output at its end only, and
    calls the file system on the path [p] only. *)
Definition writes_only (p : cstring) {A} (m : M A) : Prop :=
  forall s,
    match m s with
    | Ret _ s' | Exit _ s' =>
        st_in s' = st_in s
        /\ (exists b, st_out s' = st_out s ++ b)
        /\ (exists c, st_calls s' = c ++ st_calls s
                      /\ forall x, In x c -> x = sys_lstat p \/ x = sys_open p)
    | OutOfFuel => True
    end.

(** The state [s] with the bytes [more] following its input. *)
Definition extend (s : state) (more : list ascii) : state :=
  mkState (st_in s ++ more) (st_out s) (st_calls s).

(** ** Concrete runs *)

(** The run of the end-to-end scenario: a HEAD request for a path that
    names nothing under the document root. *)
Definition head_missing_input : list ascii :=
  chars "HEAD /missing.txt HTTP/1.0" ++ CRLF ++ CRLF.

Definition empty_docroot_world : World :=
  mkWorld (Some (chars "Tue, 03 Nov 2026 10:00:00 GMT")) (fun _ => None).

Definition index_world : World :=
  mkWorld (Some (chars "Tue, 03 Nov 2026 10:00:00 GMT"))
          (fun p => if list_eq_dec ascii_dec p (chars "/var/www//index.html")
                    then Some (regular 12 (chars "hello world!") true)
                    else None).

Definition link_world : World :=
  mkWorld (Some (chars "Tue, 03 Nov 2026 10:00:00 GMT"))
          (fun p => if list_eq_dec ascii_dec p (chars "/var/www//link")
                    then Some (symlink (chars "index.html"))
                    else if list_eq_dec ascii_dec p (chars "/var/www//index.html")
                    then Some (regular 12 (chars "hello world!") true)
                    else None).

(** A request line of the same form that does not fit the line buffer:
    [fgets] delivers its first BUFSIZ - 1 bytes, in which the second space
    does not occur, and the parser exits. *)
Definition long_request_line : list ascii :=
  chars "GET /" ++ repeat "a"%char glibc_BUFSIZ ++ chars " HTTP/1.1" ++ CRLF.

Definition negative_length_input : list ascii :=
  chars "PUT /x HTTP/1.1" ++ CRLF ++ chars "Content-Length: -3" ++ CRLF
  ++ CRLF ++ chars "abcd".

Definition post_with_body_input : list ascii :=
  chars "POST /form HTTP/1.0" ++ CRLF ++ chars "Content-Length: 3" ++ CRLF
  ++ chars "content-length: 5" ++ CRLF ++ CRLF ++ chars "hello, world".

Definition post_with_body_request : HTTPRequest :=
  mkRequest 0 (chars "POST") (chars "/form")
            [mkField (chars "content-length") (chars "5" ++ CRLF);
             mkField (chars "Content-Length") (chars "3" ++ CRLF)]
            (Some (chars "hello")) 5.

Definition wordy_length_input : list ascii :=
  chars "POST /form HTTP/1.1" ++ CRLF ++ chars "Content-Length: twelve" ++ CRLF
  ++ CRLF ++ chars "hello, world".

Definition tagged_lines : list (list ascii) :=
  [chars "Host: a" ++ CRLF; chars "X-Tag:  1" ++ CRLF; chars "x-tag:2" ++ CRLF].

(** A document root whose file [secret.txt] may not be read. *)
Definition locked_world : World :=
  mkWorld (Some (chars "Tue, 03 Nov 2026 10:00:00 GMT"))
          (fun p => if list_eq_dec ascii_dec p (chars "/var/www//secret.txt")
                    then Some (regular 4 (chars "hush") false)
                    else if list_eq_dec ascii_dec p (chars "/var/www")
                    then Some directory
                    else if list_eq_dec ascii_dec p (chars "/srv/www")
                    then Some (symlink (chars "/var/www"))
                    else None).


(** The same files under a clock that [gmtime] cannot convert. *)
Definition clockless_world : World := mkWorld None (w_fs index_world).

(** ** Lemmas on the C library *)

Lemma is_char_true (c d : ascii) : is_char c d = true <-> c = d.
Proof. apply Ascii.eqb_eq. Qed.

Lemma is_char_false (c d : ascii) : is_char c d = false <-> c <> d.
Proof. apply Ascii.eqb_neq. Qed.

Lemma is_char_refl (c : ascii) : is_char c c = true.
Proof. apply Ascii.eqb_refl. Qed.

Lemma code_inj (c d : ascii) : code c = code d -> c = d.
Proof.
  unfold code. intros H. apply N2Z.inj in H.
  rewrite <- (ascii_N_embedding c), <- (ascii_N_embedding d). now rewrite H.
Qed.

Lemma strcmp_refl (a : cstring) : strcmp a a = 0.
Proof. induction a as [|x a IH]; simpl; [reflexivity|]. now rewrite Z.eqb_refl. Qed.

Lemma strcmp_eq (a b : cstring) : strcmp a b = 0 <-> a = b.
Proof.
  split; [|intros ->; apply strcmp_refl].
  revert b. induction a as [|x a IH]; intros [|y b]; simpl; try discriminate; auto.
  destruct (code x =? code y) eqn:E.
  - intros H. apply Z.eqb_eq, code_inj in E. f_equal; auto.
  - apply Z.eqb_neq in E. lia.
Qed.

Lemma strcmp_eqb (a b : cstring) : a <> b -> (strcmp a b =? 0) = false.
Proof. intros H. apply Z.eqb_neq. now rewrite strcmp_eq. Qed.

Lemma cstr_id (s : list ascii) : ~ In NUL s -> cstr s = s.
Proof.
  induction s as [|c s IH]; simpl; intros H; [reflexivity|].
  destruct (is_char c NUL) eqn:E.
  - apply is_char_true in E. exfalso; auto.
  - f_equal. auto.
Qed.

Lemma cstr_no_NUL (s : list ascii) : ~ In NUL (cstr s).
Proof.
  induction s as [|c s IH]; simpl; [tauto|].
  destruct (is_char c NUL) eqn:E; simpl; [tauto|].
  apply is_char_false in E. intros [H|H]; auto.
Qed.

Lemma strchr_found (pre post : cstring) (c : ascii) :
  ~ In c pre -> strchr (pre ++ c :: post) c = Some (pre, c :: post).
Proof.
  induction pre as [|x pre IH]; simpl; intros H.
  - now rewrite is_char_refl.
  - destruct (is_char x c) eqn:E.
    + apply is_char_true in E. exfalso; auto.
    + rewrite IH; auto.
Qed.

Lemma strchr_none (s : cstring) (c : ascii) :
  ~ In c s <-> strchr s c = None.
Proof.
  induction s as [|x s IH]; simpl; [tauto|].
  destruct (is_char x c) eqn:E.
  - apply is_char_true in E. split; [intros H; exfalso; auto | discriminate].
  - apply is_char_false in E. destruct (strchr s c) as [[pre p]|].
    + split; [|discriminate]. intros H. exfalso.
      assert (~ In c s) as H' by tauto. apply IH in H'. discriminate.
    + split; [reflexivity|]. intros _ [H|H]; [congruence|]. now apply IH.
Qed.

Lemma strchr_some (s pre p : cstring) (c : ascii) :
  strchr s c = Some (pre, p) ->
  exists post, p = c :: post /\ s = pre ++ c :: post /\ ~ In c pre.
Proof.
  revert pre p. induction s as [|x s IH]; simpl; intros pre p; [discriminate|].
  destruct (is_char x c) eqn:E.
  - apply is_char_true in E. subst x. intros [= <- <-]. exists s. simpl. tauto.
  - apply is_char_false in E. destruct (strchr s c) as [[pre' p']|]; [|discriminate].
    intros [= <- <-]. destruct (IH _ _ eq_refl) as (post & -> & -> & Hn).
    exists post. simpl. repeat split; auto. intros [H|H]; auto.
Qed.

(** ** Reading lines *)

Lemma read_line_split n s :
  fst (read_line n s) ++ snd (read_line n s) = s.
Proof.
  revert s. induction n as [|n IH]; intros [|c s]; simpl; try reflexivity.
  destruct (is_char c LF); simpl; [reflexivity|].
  specialize (IH s). destruct (read_line n s) as [l r]. simpl in *. now f_equal.
Qed.

Lemma read_line_whole n l rest :
  ~ In LF l -> (List.length l < n)%nat ->
  read_line n (l ++ LF :: rest) = (l ++ [LF], rest).
Proof.
  revert n. induction l as [|c l IH]; intros n Hl Hn.
  - destruct n; [simpl in Hn; lia|]. cbn [read_line app]. now rewrite is_char_refl.
  - destruct n; [simpl in Hn; lia|]. cbn [read_line app].
    destruct (is_char c LF) eqn:E.
    + apply is_char_true in E. exfalso. apply Hl. now left.
    + rewrite IH; [reflexivity | | simpl in Hn; lia].
      intros H. apply Hl. now right.
Qed.

Lemma fgets_eof size s :
  st_in s = [] -> fgets size s = Ret None s.
Proof. unfold fgets. now intros ->. Qed.

(** A line that fits the buffer is read whole. *)
Lemma fgets_line size s l rest :
  st_in s = l ++ LF :: rest ->
  ~ In LF l -> ~ In NUL l -> (List.length (l ++ [LF]) < size)%nat ->
  fgets size s = Ret (Some (l ++ [LF])) (consumed s rest).
Proof.
  intros Hs Hl Hz Hn. unfold fgets. rewrite Hs.
  rewrite length_app in Hn. simpl in Hn.
  rewrite read_line_whole by (auto; lia).
  rewrite cstr_id.
  - destruct l; reflexivity.
  - rewrite in_app_iff. simpl. intros [H|[H|[]]]; [auto|discriminate].
Qed.

(** What [fgets] returns comes off the front of the input, and a buffer
    that is not empty means that input was consumed. *)
Lemma fgets_inv size s buf s' :
  fgets size s = Ret (Some buf) s' ->
  exists l, st_in s = l ++ st_in s' /\ buf = cstr l
            /\ st_out s' = st_out s /\ st_calls s' = st_calls s.
Proof.
  unfold fgets. destruct (st_in s) as [|c i] eqn:Hs; [discriminate|].
  pose proof (read_line_split (size - 1) (c :: i)) as H.
  destruct (read_line (size - 1) (c :: i)) as [l r]. simpl in H.
  intros [= <- <-]. exists l. simpl. auto.
Qed.

Lemma fgets_total size s :
  fgets size s = Ret None s
  \/ exists buf s', fgets size s = Ret (Some buf) s'.
Proof.
  unfold fgets. destruct (st_in s); [now left|right].
  destruct (read_line _ _). eauto.
Qed.

Lemma cstr_nonempty l : cstr l <> [] -> l <> [].
Proof. destruct l; simpl; congruence. Qed.

(** ** Numerals *)

Lemma digits_value_stop acc s :
  match s with [] => True | c :: _ => isdigit c = false end ->
  digits_value acc s = acc.
Proof. destruct s as [|c s]; simpl; [reflexivity|]. now intros ->. Qed.

Lemma strtol_no_numeral s : no_numeral s = true -> strtol s = 0.
Proof.
  unfold no_numeral, strtol, signed_value.
  destruct (skip_spaces s) as [|c s']; [reflexivity|].
  destruct (is_char c "-") eqn:E1; simpl orb.
  - intros H. rewrite digits_value_stop; [reflexivity|].
    destruct s'; [exact I|]. now apply negb_true_iff.
  - destruct (is_char c "+") eqn:E2.
    + intros H. rewrite digits_value_stop; [reflexivity|].
      destruct s'; [exact I|]. now apply negb_true_iff.
    + intros H. rewrite digits_value_stop; [reflexivity|]. now apply negb_true_iff.
Qed.

Lemma digit_char_spec d :
  0 <= d <= 9 ->
  isdigit (digit_char d) = true /\ code (digit_char d) - 48 = d
  /\ isspace (digit_char d) = false
  /\ is_char (digit_char d) "-" = false /\ is_char (digit_char d) "+" = false.
Proof.
  intros H.
  assert (d = 0 \/ d = 1 \/ d = 2 \/ d = 3 \/ d = 4 \/ d = 5 \/ d = 6 \/ d = 7
          \/ d = 8 \/ d = 9) as Hd by lia.
  repeat (destruct Hd as [-> | Hd]); try subst d; repeat split; reflexivity.
Qed.

Lemma digits_value_app ds acc r :
  forallb isdigit ds = true ->
  digits_value acc (ds ++ r) = digits_value (fold_left digit_step ds acc) r.
Proof.
  revert acc. induction ds as [|c ds IH]; intros acc H; [reflexivity|].
  simpl in H. apply andb_true_iff in H as [Hc Hds].
  simpl. rewrite Hc. now apply IH.
Qed.

Lemma rev_digits_spec fuel n :
  0 <= n < 2 ^ Z.of_nat fuel ->
  forallb isdigit (rev_digits fuel n) = true
  /\ fold_right (fun c x => digit_step x c) 0 (rev_digits fuel n) = n.
Proof.
  revert n. induction fuel as [|fuel IH]; intros n Hn.
  - simpl in *. split; [reflexivity|lia].
  - assert (Hm : 0 <= n mod 10 <= 9) by (pose proof (Z.mod_pos_bound n 10); lia).
    destruct (digit_char_spec _ Hm) as (Hd & Hv & _).
    cbn [rev_digits]. destruct (n <? 10) eqn:E.
    + apply Z.ltb_lt in E. simpl. rewrite Hd. split; [reflexivity|].
      unfold digit_step. rewrite Hv. rewrite Z.mod_small; lia.
    + apply Z.ltb_ge in E.
      assert (Hq : 0 <= n / 10 < 2 ^ Z.of_nat fuel).
      { split; [apply Z.div_pos; lia|].
        apply Z.div_lt_upper_bound; [lia|].
        rewrite Nat2Z.inj_succ, Z.pow_succ_r in Hn by lia. lia. }
      destruct (IH _ Hq) as [Hall Hval].
      simpl. rewrite Hd, Hall. split; [reflexivity|].
      rewrite Hval. unfold digit_step. rewrite Hv.
      pose proof (Z.div_mod n 10). lia.
Qed.

Lemma rev_digits_nonempty fuel n : rev_digits (S fuel) n <> [].
Proof. simpl. discriminate. Qed.

Lemma print_nat_spec n r :
  0 <= n ->
  match r with [] => True | c :: _ => isdigit c = false end ->
  forallb isdigit (print_nat n) = true
  /\ digits_value 0 (print_nat n ++ r) = n
  /\ exists d ds, print_nat n = d :: ds /\ isdigit d = true.
Proof.
  intros Hn Hr. unfold print_nat.
  assert (Hb : 0 <= n < 2 ^ Z.of_nat (S (Z.to_nat (Z.log2 n)))).
  { split; [assumption|]. rewrite Nat2Z.inj_succ, Z2Nat.id by apply Z.log2_nonneg.
    destruct (Z.eq_dec n 0) as [->|]; [reflexivity|].
    apply Z.log2_spec. lia. }
  destruct (rev_digits_spec _ _ Hb) as [Hall Hval].
  assert (Hall' : forallb isdigit (rev (rev_digits (S (Z.to_nat (Z.log2 n))) n)) = true).
  { rewrite forallb_forall in *. intros x Hx. apply Hall. now apply in_rev. }
  split; [assumption|]. split.
  - rewrite digits_value_app by assumption.
    rewrite digits_value_stop by assumption.
    rewrite <- fold_left_rev_right, rev_involutive. exact Hval.
  - destruct (rev (rev_digits (S (Z.to_nat (Z.log2 n))) n)) as [|d ds] eqn:E.
    + exfalso. apply (rev_digits_nonempty (Z.to_nat (Z.log2 n)) n).
      rewrite <- (rev_involutive (rev_digits _ _)), E. reflexivity.
    + exists d, ds. split; [reflexivity|]. simpl in Hall'.
      now apply andb_true_iff in Hall' as [? _].
Qed.

Lemma isdigit_not_space d : isdigit d = true -> isspace d = false.
Proof.
  unfold isdigit, isspace. intros H. apply andb_true_iff in H as [H1 H2].
  apply Z.leb_le in H1, H2.
  apply orb_false_iff. split.
  - apply Z.eqb_neq. lia.
  - apply andb_false_iff. right. apply Z.leb_gt. lia.
Qed.

Lemma isdigit_not_sign d :
  isdigit d = true -> is_char d "-" = false /\ is_char d "+" = false.
Proof.
  intros H. split; apply is_char_false; intros ->; discriminate.
Qed.

(** Reading back what [%d] and [%ld] print. *)
Lemma strtol_print_nat n r :
  0 <= n <= LONG_MAX ->
  match r with [] => True | c :: _ => isdigit c = false end ->
  strtol (print_nat n ++ r) = n.
Proof.
  intros Hn Hr.
  destruct (print_nat_spec n r) as (_ & Hv & d & ds & Hp & Hd); [lia|assumption|].
  unfold strtol, signed_value. rewrite Hp in *. cbn [app skip_spaces].
  rewrite (isdigit_not_space _ Hd).
  destruct (isdigit_not_sign _ Hd) as [-> ->].
  cbn [app] in Hv. rewrite Hv. unfold LONG_MAX, LONG_MIN in *. lia.
Qed.

Lemma atoi_print_nat n r :
  0 <= n < 2 ^ 31 ->
  match r with [] => True | c :: _ => isdigit c = false end ->
  atoi (print_nat n ++ r) = n.
Proof.
  intros Hn Hr. unfold atoi. rewrite strtol_print_nat; [| unfold LONG_MAX; lia | assumption].
  unfold int_of_long. rewrite Z.mod_small; lia.
Qed.

(** [%ld] and [atol] agree on every [long]. *)
Lemma strtol_print_int n r :
  LONG_MIN <= n <= LONG_MAX ->
  match r with [] => True | c :: _ => isdigit c = false end ->
  strtol (print_int n ++ r) = n.
Proof.
  intros Hn Hr. unfold print_int. destruct (n <? 0) eqn:E.
  - apply Z.ltb_lt in E.
    destruct (print_nat_spec (- n) r) as (_ & Hv & _); [lia|assumption|].
    unfold strtol, signed_value. cbn [app skip_spaces].
    change (isspace "-") with false. cbv iota.
    change (is_char "-" "-") with true. cbv iota.
    rewrite Hv. unfold LONG_MAX, LONG_MIN in *. lia.
  - apply Z.ltb_ge in E. apply strtol_print_nat; [lia|assumption].
Qed.

(** ** Letter case *)

Lemma uppcase_char c :
  (if islower c then char_of (code c + (65 - 97)) else c) = ascii_upper c.
Proof.
  destruct c as [[] [] [] [] [] [] [] []]; reflexivity.
Qed.

Lemma uppcase_spec str : uppcase str = map ascii_upper str.
Proof.
  unfold uppcase. apply map_ext. exact uppcase_char.
Qed.

Lemma strncasecmp_eq a b n :
  strncasecmp a b n = 0 <-> map tolower (firstn n a) = map tolower (firstn n b).
Proof.
  revert a b. induction n as [|n IH]; intros a b; [simpl; split; reflexivity|].
  destruct a as [|x a], b as [|y b]; simpl; try (split; [lia|discriminate]);
    [split; reflexivity|].
  destruct (code (tolower x) =? code (tolower y)) eqn:E.
  - apply Z.eqb_eq, code_inj in E. rewrite IH. split.
    + intros ->. now rewrite E.
    + now intros [= _ ->].
  - apply Z.eqb_neq in E. split; [lia|]. intros [= H _]. now rewrite H in E.
Qed.

Lemma strcasecmp_eq a b :
  strcasecmp a b = 0 <-> map tolower a = map tolower b.
Proof.
  revert b. induction a as [|x a IH]; intros [|y b]; simpl;
    try (split; [lia|discriminate]); [split; reflexivity|].
  destruct (code (tolower x) =? code (tolower y)) eqn:E.
  - apply Z.eqb_eq, code_inj in E. rewrite IH. split.
    + intros ->. now rewrite E.
    + now intros [= _ ->].
  - apply Z.eqb_neq in E. split; [lia|]. intros [= H _]. now rewrite H in E.
Qed.

(** ** The response writer *)

Lemma wrote_wrote s a b : wrote (wrote s a) b = wrote s (a ++ b).
Proof. unfold wrote; simpl. now rewrite app_assoc. Qed.

Lemma wrote_nil s : wrote s [] = s.
Proof. unfold wrote. rewrite app_nil_r. now destruct s. Qed.

Lemma output_common_header_fields_ok w req status date s :
  w_date w = Some date ->
  output_common_header_fields w req status s
  = Ret tt (wrote s (common_header_fields (protocol_minor_version req) status date)).
Proof.
  intros Hd. unfold output_common_header_fields. rewrite Hd.
  unfold bind, fwrite. rewrite !wrote_wrote.
  unfold common_header_fields, status_line. now rewrite <- !app_assoc.
Qed.

Lemma output_common_header_fields_gmtime w req status s :
  w_date w = None ->
  output_common_header_fields w req status s = Exit gmtime_failed s.
Proof.
  intros Hd. unfold output_common_header_fields. now rewrite Hd.
Qed.

(** The copy loop ends within its bound and writes the whole file. *)
Lemma copy_file_ok BUFSIZ fuel file s :
  (0 < BUFSIZ)%nat -> (List.length file < fuel)%nat ->
  copy_file BUFSIZ fuel file s = Ret tt (wrote s file).
Proof.
  intros Hb. revert file s.
  induction fuel as [|fuel IH]; intros file s Hf; [lia|].
  simpl. destruct (Nat.min BUFSIZ (List.length file) =? 0)%nat eqn:E.
  - apply Nat.eqb_eq in E. destruct file as [|c file]; [|simpl in E; lia].
    unfold ret. now rewrite wrote_nil.
  - apply Nat.eqb_neq in E. unfold bind, fwrite.
    rewrite IH.
    + now rewrite wrote_wrote, firstn_skipn.
    + rewrite length_skipn. lia.
Qed.

Lemma get_fileinfo_eq w docroot urlpath s :
  get_fileinfo w docroot urlpath s
  = Ret (match w_fs w (build_fspath docroot urlpath) with
         | Some (regular size _ _) =>
             mkFileInfo (build_fspath docroot urlpath) (Some size) true
         | _ => mkFileInfo (build_fspath docroot urlpath) None false
         end)
        (called s (sys_lstat (build_fspath docroot urlpath))).
Proof.
  unfold get_fileinfo, bind, call, lstat.
  destruct (w_fs w (build_fspath docroot urlpath)) as [[]|]; reflexivity.
Qed.

Lemma do_file_response_not_found BUFSIZ w req docroot date s :
  w_date w = Some date ->
  (forall n c r,
      w_fs w (build_fspath docroot (path req)) <> Some (regular n c r)) ->
  do_file_response BUFSIZ w req docroot s
  = Ret tt (wrote (called s (sys_lstat (build_fspath docroot (path req))))
                  (common_header_fields (protocol_minor_version req)
                                        (chars "404 Not Found") date)).
Proof.
  intros Hd Hn. unfold do_file_response, bind. rewrite get_fileinfo_eq.
  destruct (w_fs w (build_fspath docroot (path req))) as [[n c r| | | | | |]|] eqn:E;
    cbn [ok negb];
    try (unfold not_found; now rewrite output_common_header_fields_ok with (date := date)).
  exfalso. now apply (Hn n c r).
Qed.

Lemma do_file_response_found BUFSIZ w req docroot date size c r s :
  w_date w = Some date ->
  w_fs w (build_fspath docroot (path req)) = Some (regular size c r) ->
  let p := build_fspath docroot (path req) in
  let hd := ok_header_block (protocol_minor_version req) size date in
  do_file_response BUFSIZ w req docroot s
  = if strcmp (method req) (chars "HEAD") =? 0
    then Ret tt (wrote (called s (sys_lstat p)) hd)
    else if r
         then copy_file BUFSIZ (S (List.length c)) c
                (called (wrote (called s (sys_lstat p)) hd) (sys_open p))
         else Exit (failed_to_open p)
                (called (wrote (called s (sys_lstat p)) hd) (sys_open p)).
Proof.
  intros Hd Hf p hd. unfold do_file_response, bind. rewrite get_fileinfo_eq.
  rewrite Hf. fold p. cbn [ok negb fi_size fi_path].
  rewrite output_common_header_fields_ok with (date := date) by assumption.
  unfold fwrite at 1 2 3. rewrite !wrote_wrote. unfold guess_content_type.
  replace (common_header_fields _ _ _ ++ _) with hd
    by (unfold hd, ok_header_block; now rewrite <- !app_assoc).
  destruct (strcmp (method req) (chars "HEAD") =? 0); cbn [negb].
  - reflexivity.
  - unfold call, open. fold p in Hf. rewrite Hf. now destruct r.
Qed.

Lemma respond_to_get BUFSIZ w req docroot :
  method req = chars "GET" \/ method req = chars "HEAD" ->
  respond_to BUFSIZ w req docroot = do_file_response BUFSIZ w req docroot.
Proof.
  unfold respond_to. intros [-> | ->]; reflexivity.
Qed.


Lemma common_header_fields_open minor status date :
  ends_with_blank_line (common_header_fields minor status date) = false.
Proof.
  unfold common_header_fields, ends_with_blank_line.
  rewrite !app_assoc. rewrite rev_app_distr. rewrite rev_app_distr. reflexivity.
Qed.

(** The error responses are the common header fields and nothing else: the
    empty line that ends a header block is not written. *)
Lemma error_responses_lack_blank_line w req date s :
  w_date w = Some date ->
  forall status,
    output_common_header_fields w req status s
    = Ret tt (wrote s (common_header_fields (protocol_minor_version req) status date))
    /\ ends_with_blank_line
         (common_header_fields (protocol_minor_version req) status date) = false.
Proof.
  intros Hd status. split.
  - now apply output_common_header_fields_ok.
  - apply common_header_fields_open.
Qed.

(** C1, on the code: the response to [HEAD /missing.txt HTTP/1.0] is the
    404 status line and the Date, Server and Connection fields, and it stops
    there; the empty line that should end the header block is missing
    (the 200 response has it, see [ok_header_block]). *)
Theorem head_missing_file_response_unterminated :
  service glibc_BUFSIZ empty_docroot_world (chars "/var/www") (start head_missing_input)
  = Ret tt (mkState []
             (chars "HTTP/1.0 404 Not Found" ++ CRLF
              ++ chars "Date: Tue, 03 Nov 2026 10:00:00 GMT" ++ CRLF
              ++ chars "Server: r3u http/0.0.1" ++ CRLF
              ++ chars "Connection: close" ++ CRLF)
             [sys_lstat (chars "/var/www//missing.txt")])
  /\ ends_with_blank_line
       (chars "HTTP/1.0 404 Not Found" ++ CRLF
        ++ chars "Date: Tue, 03 Nov 2026 10:00:00 GMT" ++ CRLF
        ++ chars "Server: r3u http/0.0.1" ++ CRLF
        ++ chars "Connection: close" ++ CRLF) = false.
Proof. split; vm_compute; reflexivity. Qed.




(** C6: dispatch on the method.  POST is answered 405 and any method other
    than GET, HEAD and POST is answered 501, both without a call of the file
    system; GET and HEAD go through [do_file_response], whose first step is
    the [lstat] of the resolved path. *)
Theorem respond_to_dispatch BUFSIZ w req docroot date s :
  w_date w = Some date ->
  (method req = chars "POST" ->
   respond_to BUFSIZ w req docroot s
   = Ret tt (wrote s (common_header_fields (protocol_minor_version req)
                        (chars "405 Method Not Allowed") date)))
  /\ (method req <> chars "GET" -> method req <> chars "HEAD" ->
      method req <> chars "POST" ->
      respond_to BUFSIZ w req docroot s
      = Ret tt (wrote s (common_header_fields (protocol_minor_version req)
                           (chars "501 Not Implemented") date)))
  /\ (method req = chars "GET" \/ method req = chars "HEAD" ->
      respond_to BUFSIZ w req docroot s = do_file_response BUFSIZ w req docroot s
      /\ exists s' calls,
           final (respond_to BUFSIZ w req docroot s) = Some s'
           /\ st_calls s'
              = calls ++ sys_lstat (build_fspath docroot (path req)) :: st_calls s).
Proof.
  intros Hd. split; [|split].
  - intros Hm. unfold respond_to. rewrite Hm.
    replace (strcmp (chars "POST") (chars "GET") =? 0) with false by reflexivity.
    replace (strcmp (chars "POST") (chars "HEAD") =? 0) with false by reflexivity.
    rewrite strcmp_refl. cbn [Z.eqb]. unfold method_not_allowed.
    now apply output_common_header_fields_ok.
  - intros H1 H2 H3. unfold respond_to.
    rewrite !strcmp_eqb by assumption. unfold not_implemented.
    now apply output_common_header_fields_ok.
  - intros Hm. rewrite respond_to_get by assumption. split; [reflexivity|].
    destruct (w_fs w (build_fspath docroot (path req))) as [n|] eqn:Hf.
    + destruct n as [size c r| | | | | |];
        try (rewrite do_file_response_not_found with (date := date);
             [ eexists; exists []; split; reflexivity | assumption
             | intros n' c' r'; rewrite Hf; discriminate ]).
      rewrite (do_file_response_found BUFSIZ w req docroot date size c r s Hd Hf).
      destruct (strcmp (method req) (chars "HEAD") =? 0).
      * eexists; exists []; split; reflexivity.
      * destruct r.
        -- destruct BUFSIZ as [|b].
           ++ simpl. eexists. eexists [_]. split; reflexivity.
           ++ rewrite copy_file_ok by lia.
              eexists. eexists [_]. split; reflexivity.
        -- eexists. eexists [_]. split; reflexivity.
    + rewrite do_file_response_not_found with (date := date);
        [ eexists; exists []; split; reflexivity | assumption
        | intros n' c' r'; rewrite Hf; discriminate ].
Qed.

Lemma respond_to_dispatch_witness :
  let req := mkRequest 0 (chars "POST") (chars "/index.html") [] None 0 in
  let date := chars "Tue, 03 Nov 2026 10:00:00 GMT" in
  let s := start [] in
  (method req = chars "POST" ->
   respond_to glibc_BUFSIZ index_world req (chars "/var/www") s
   = Ret tt (wrote s (common_header_fields 0 (chars "405 Method Not Allowed") date)))
  /\ (method req <> chars "GET" -> method req <> chars "HEAD" ->
      method req <> chars "POST" ->
      respond_to glibc_BUFSIZ index_world req (chars "/var/www") s
      = Ret tt (wrote s (common_header_fields 0 (chars "501 Not Implemented") date)))
  /\ (method req = chars "GET" \/ method req = chars "HEAD" ->
      respond_to glibc_BUFSIZ index_world req (chars "/var/www") s
      = do_file_response glibc_BUFSIZ index_world req (chars "/var/www") s
      /\ exists s' calls,
           final (respond_to glibc_BUFSIZ index_world req (chars "/var/www") s) = Some s'
           /\ st_calls s'
              = calls ++ sys_lstat (build_fspath (chars "/var/www") (path req)) :: st_calls s).
Proof.
  apply (respond_to_dispatch glibc_BUFSIZ index_world
           (mkRequest 0 (chars "POST") (chars "/index.html") [] None 0)
           (chars "/var/www") (chars "Tue, 03 Nov 2026 10:00:00 GMT") (start [])).
  reflexivity.
Defined.

(** C7: the path handed to the file system is the document root, a slash
    and the URL path as it came, and the only call made is [lstat] on it;
    [ok] is set exactly when that path names a regular file, so that
    nothing, a directory, a device and a symbolic link (whatever it points
    to) all leave it unset, and GET and HEAD are then answered 404. *)
Theorem get_fileinfo_spec BUFSIZ w docroot urlpath s :
  exists info,
    get_fileinfo w docroot urlpath s
    = Ret info (called s (sys_lstat (docroot ++ chars "/" ++ urlpath)))
    /\ fi_path info = docroot ++ chars "/" ++ urlpath
    /\ (ok info = true <->
        exists size c r,
          w_fs w (docroot ++ chars "/" ++ urlpath) = Some (regular size c r))
    /\ (forall size c r,
          w_fs w (docroot ++ chars "/" ++ urlpath) = Some (regular size c r) ->
          fi_size info = Some size)
    /\ (forall n, w_fs w (docroot ++ chars "/" ++ urlpath) = Some n ->
        match n with regular _ _ _ => True | _ => ok info = false end)
    /\ (w_fs w (docroot ++ chars "/" ++ urlpath) = None -> ok info = false)
    /\ (forall req date,
          ok info = false -> w_date w = Some date -> path req = urlpath ->
          method req = chars "GET" \/ method req = chars "HEAD" ->
          respond_to BUFSIZ w req docroot s
          = Ret tt (wrote (called s (sys_lstat (docroot ++ chars "/" ++ urlpath)))
                          (common_header_fields (protocol_minor_version req)
                                                (chars "404 Not Found") date))).
Proof.
  eexists. split; [apply get_fileinfo_eq|]. fold (build_fspath docroot urlpath).
  assert (H404 : forall req date,
    (forall n c r, w_fs w (build_fspath docroot urlpath) <> Some (regular n c r)) ->
    w_date w = Some date -> path req = urlpath ->
    method req = chars "GET" \/ method req = chars "HEAD" ->
    respond_to BUFSIZ w req docroot s
    = Ret tt (wrote (called s (sys_lstat (build_fspath docroot urlpath)))
                    (common_header_fields (protocol_minor_version req)
                                          (chars "404 Not Found") date))).
  { intros req date Hn Hd Hp Hm. rewrite respond_to_get by assumption.
    subst urlpath. now apply do_file_response_not_found. }
  destruct (w_fs w (build_fspath docroot urlpath)) as [n|] eqn:Hf;
    [destruct n as [size c r| | | | | |]|]; cbn [fi_path ok fi_size];
    repeat apply conj;
    try reflexivity;
    try (intros; congruence);
    try (intros [n' [c' [r' H']]]; congruence);
    try (intros n' H'; injection H' as <-; first [exact I | reflexivity]);
    try (intros req date _; apply H404; intros n' c' r'; congruence).
  intros _. now exists size, c, r.
Qed.

(** A symbolic link to a regular file is not served. *)
Example symlink_is_not_found :
  respond_to glibc_BUFSIZ link_world
    (mkRequest 1 (chars "GET") (chars "/link") [] None 0) (chars "/var/www") (start [])
  = Ret tt (mkState []
              (common_header_fields 1 (chars "404 Not Found")
                                    (chars "Tue, 03 Nov 2026 10:00:00 GMT"))
              [sys_lstat (chars "/var/www//link")]).
Proof. vm_compute. reflexivity. Qed.

(** ** The request line *)

Lemma token_text t : token t -> text t.
Proof. unfold token, text. tauto. Qed.

Lemma text_app a b : text a -> text b -> text (a ++ b).
Proof. unfold text. rewrite !in_app_iff. tauto. Qed.

Lemma text_cons c a : c <> NUL -> c <> LF -> text a -> text (c :: a).
Proof. unfold text. simpl. intuition congruence. Qed.

(** A request line with its two spaces, read whole: all that is left to
    decide is the protocol token [tok], the rest of the line. *)
Lemma read_request_line_tokens BUFSIZ req s M P T rest :
  token M -> token P -> text T ->
  st_in s = (M ++ SP :: P ++ SP :: T) ++ LF :: rest ->
  (List.length ((M ++ SP :: P ++ SP :: T) ++ [LF]) < BUFSIZ)%nat ->
  read_request_line BUFSIZ req s
  = if strncasecmp (T ++ [LF]) (chars "HTTP/1.") 7 =? 0
    then Ret (mkRequest (atoi (skipn 7 (T ++ [LF]))) (uppcase M) P
                        (header req) (body req) (length req))
             (consumed s rest)
    else Exit (parse_error_on_request_line_3 M) (consumed s rest).
Proof.
  intros (HM1 & HM2 & HM3) (HP1 & HP2 & HP3) (HT1 & HT2) Hs Hn.
  assert (Htext : text (M ++ SP :: P ++ SP :: T)).
  { apply text_app; [split; assumption|].
    apply text_cons; [discriminate | discriminate |].
    apply text_app; [split; assumption|].
    apply text_cons; [discriminate | discriminate | split; assumption]. }
  destruct Htext as [Hz Hl].
  unfold read_request_line, bind.
  rewrite (fgets_line BUFSIZ s _ rest Hs Hl Hz Hn).
  rewrite <- app_assoc. cbn [app].
  rewrite strchr_found by assumption. cbn [tl].
  rewrite <- app_assoc. cbn [app].
  rewrite strchr_found by assumption. cbn [tl].
  change (strlen (chars "HTTP/1.")) with 7%nat.
  destruct (strncasecmp (T ++ [LF]) (chars "HTTP/1.") 7 =? 0); reflexivity.
Qed.

Lemma read_request_line_no_space BUFSIZ req s buf s' :
  fgets BUFSIZ s = Ret (Some buf) s' -> ~ In SP buf ->
  read_request_line BUFSIZ req s = Exit (parse_error_on_request_line_1 buf) s'.
Proof.
  intros Hf Hn. unfold read_request_line, bind. rewrite Hf.
  apply strchr_none in Hn. now rewrite Hn.
Qed.

Lemma read_request_line_one_space BUFSIZ req s m p s' :
  fgets BUFSIZ s = Ret (Some (m ++ SP :: p)) s' -> ~ In SP m -> ~ In SP p ->
  read_request_line BUFSIZ req s = Exit (parse_error_on_request_line_2 m) s'.
Proof.
  intros Hf Hm Hp. unfold read_request_line, bind. rewrite Hf.
  rewrite strchr_found by assumption. cbn [tl].
  apply strchr_none in Hp. now rewrite Hp.
Qed.

Lemma read_request_line_eof BUFSIZ req s :
  st_in s = [] -> read_request_line BUFSIZ req s = Exit no_request_line s.
Proof.
  intros H. unfold read_request_line, bind. now rewrite fgets_eof.
Qed.

(** C2, as the code has it: a request line [M P HTTP/1.n] followed by CR LF
    that fits the line buffer (it is shorter than BUFSIZ bytes) is parsed
    into the method [M] in upper case, the path [P] as it is and the minor
    version [n]; a line in which the first or the second space is missing
    makes the parser exit. *)
Theorem request_line_parse BUFSIZ req :
  (forall s M P n rest,
      token M -> token P -> 0 <= n < 2 ^ 31 ->
      st_in s = (M ++ chars " " ++ P ++ chars " " ++ chars "HTTP/1."
                 ++ print_nat n ++ CRLF) ++ rest ->
      (List.length (M ++ chars " " ++ P ++ chars " " ++ chars "HTTP/1."
                    ++ print_nat n ++ CRLF) < BUFSIZ)%nat ->
      read_request_line BUFSIZ req s
      = Ret (mkRequest n (map ascii_upper M) P (header req) (body req) (length req))
            (consumed s rest))
  /\ (forall s buf s',
        fgets BUFSIZ s = Ret (Some buf) s' ->
        (~ In SP buf ->
         read_request_line BUFSIZ req s
         = Exit (parse_error_on_request_line_1 buf) s')
        /\ (forall m p, buf = m ++ SP :: p -> ~ In SP m -> ~ In SP p ->
            read_request_line BUFSIZ req s
            = Exit (parse_error_on_request_line_2 m) s')).
Proof.
  split.
  - intros s M P n rest HM HP Hn Hs Hlen.
    set (T := chars "HTTP/1." ++ print_nat n ++ [CR]).
    assert (Hline : M ++ chars " " ++ P ++ chars " " ++ chars "HTTP/1."
                    ++ print_nat n ++ CRLF
                    = (M ++ SP :: P ++ SP :: T) ++ [LF]).
    { unfold T, CRLF. cbn [chars list_ascii_of_string app].
      repeat (rewrite <- ?app_assoc; cbn [app]). reflexivity. }
    rewrite Hline in Hs, Hlen. rewrite <- app_assoc in Hs. cbn [app] in Hs.
    destruct (print_nat_spec n [CR]) as (Hall & _ & _); [lia | reflexivity |].
    assert (HT : text T).
    { unfold T. apply text_app; [split; vm_compute; intuition discriminate|].
      apply text_app; [|split; vm_compute; intuition discriminate].
      rewrite forallb_forall in Hall.
      split; intros H; apply Hall in H; discriminate. }
    rewrite (read_request_line_tokens BUFSIZ req s M P T rest HM HP HT Hs Hlen).
    unfold T. rewrite <- !app_assoc.
    change (strncasecmp (chars "HTTP/1." ++ print_nat n ++ [CR] ++ [LF])
                        (chars "HTTP/1.") 7 =? 0) with true.
    change (skipn 7 (chars "HTTP/1." ++ print_nat n ++ [CR] ++ [LF]))
      with (print_nat n ++ [CR; LF]).
    rewrite atoi_print_nat by (auto; reflexivity).
    now rewrite uppcase_spec.
  - intros s buf s' Hf. split.
    + now apply read_request_line_no_space.
    + intros m p ->. now apply read_request_line_one_space.
Qed.

Lemma request_line_parse_witness :
  read_request_line glibc_BUFSIZ request0
    (start (chars "get /a%20b/../c HTTP/1.1" ++ CRLF ++ chars "Host: x" ++ CRLF))
  = Ret (mkRequest 1 (chars "GET") (chars "/a%20b/../c") [] None 0)
        (start (chars "Host: x" ++ CRLF)).
Proof.
  apply (proj1 (request_line_parse glibc_BUFSIZ request0)
           (start (chars "get /a%20b/../c HTTP/1.1" ++ CRLF ++ chars "Host: x" ++ CRLF))
           (chars "get") (chars "/a%20b/../c") 1 (chars "Host: x" ++ CRLF)).
  - repeat split; vm_compute; intuition discriminate.
  - repeat split; vm_compute; intuition discriminate.
  - lia.
  - reflexivity.
  - apply Nat.ltb_lt. vm_compute. reflexivity.
Defined.

Lemma long_request_line_exits :
  long_request_line
  = chars "GET" ++ chars " " ++ (chars "/" ++ repeat "a"%char glibc_BUFSIZ)
    ++ chars " " ++ chars "HTTP/1." ++ print_nat 1 ++ CRLF
  /\ read_request_line glibc_BUFSIZ request0 (start long_request_line)
     = Exit (parse_error_on_request_line_2 (chars "GET"))
            (start (chars "aaaaaa HTTP/1.1" ++ CRLF)).
Proof. split; vm_compute; reflexivity. Qed.

(** The request line once it is in the buffer with its two spaces: all
    that is left to decide is the protocol token [tok], what follows the
    second space. *)
Lemma read_request_line_buffer BUFSIZ req s s' M P tok :
  fgets BUFSIZ s = Ret (Some (M ++ SP :: P ++ SP :: tok)) s' ->
  ~ In SP M -> ~ In SP P ->
  read_request_line BUFSIZ req s
  = if strncasecmp tok (chars "HTTP/1.") 7 =? 0
    then Ret (mkRequest (atoi (skipn 7 tok)) (uppcase M) P
                        (header req) (body req) (length req)) s'
    else Exit (parse_error_on_request_line_3 M) s'.
Proof.
  intros Hf HM HP. unfold read_request_line, bind. rewrite Hf.
  rewrite strchr_found by assumption. cbn [tl].
  rewrite strchr_found by assumption. cbn [tl].
  change (strlen (chars "HTTP/1.")) with 7%nat.
  destruct (strncasecmp tok (chars "HTTP/1.") 7 =? 0); reflexivity.
Qed.

Lemma atoi_print_int n r :
  - 2 ^ 31 <= n < 2 ^ 31 ->
  match r with [] => True | c :: _ => isdigit c = false end ->
  atoi (print_int n ++ r) = n.
Proof.
  intros Hn Hr. unfold atoi.
  rewrite strtol_print_int; [| unfold LONG_MIN, LONG_MAX; lia | assumption].
  unfold int_of_long. rewrite Z.mod_small; lia.
Qed.

(** C8, as the code has it.  The line is what [fgets] puts in the buffer:
    the input up to its first newline, BUFSIZ - 1 bytes of it at most, as
    far as its first NUL.  When it holds two spaces, the protocol token
    being what follows the second, the parser exits exactly when the token
    does not begin with [HTTP/1.] compared without regard to letter case;
    otherwise the minor version is what [atoi] makes of the characters
    after the prefix: the value of a decimal numeral in the range of [int],
    with or without a minus sign, that a character other than a digit
    follows, and 0 when, after white space and an optional sign, no digit
    comes first. *)
Theorem protocol_token_check BUFSIZ req s buf s' M P tok :
  fgets BUFSIZ s = Ret (Some buf) s' ->
  buf = M ++ SP :: P ++ SP :: tok ->
  ~ In SP M -> ~ In SP P ->
  (exits (read_request_line BUFSIZ req s)
   <-> map tolower (firstn 7 tok) <> chars "http/1.")
  /\ (map tolower (firstn 7 tok) <> chars "http/1." ->
      read_request_line BUFSIZ req s
      = Exit (parse_error_on_request_line_3 M) s')
  /\ (map tolower (firstn 7 tok) = chars "http/1." ->
      read_request_line BUFSIZ req s
      = Ret (mkRequest (atoi (skipn 7 tok)) (uppcase M) P
                       (header req) (body req) (length req)) s')
  /\ (forall n r,
        skipn 7 tok = print_int n ++ r -> - 2 ^ 31 <= n < 2 ^ 31 ->
        match r with [] => True | c :: _ => isdigit c = false end ->
        atoi (skipn 7 tok) = n)
  /\ (no_numeral (skipn 7 tok) = true -> atoi (skipn 7 tok) = 0).
Proof.
  intros Hf -> HM HP.
  rewrite (read_request_line_buffer BUFSIZ req s s' M P tok Hf HM HP).
  pose proof (strncasecmp_eq tok (chars "HTTP/1.") 7) as Hc.
  change (map tolower (firstn 7 (chars "HTTP/1."))) with (chars "http/1.") in Hc.
  assert (Hnum : forall n r,
    skipn 7 tok = print_int n ++ r -> - 2 ^ 31 <= n < 2 ^ 31 ->
    match r with [] => True | c :: _ => isdigit c = false end ->
    atoi (skipn 7 tok) = n).
  { intros n r -> Hn Hr. now apply atoi_print_int. }
  assert (Hzero : no_numeral (skipn 7 tok) = true -> atoi (skipn 7 tok) = 0).
  { intros H. unfold atoi. now rewrite strtol_no_numeral. }
  destruct (strncasecmp tok (chars "HTTP/1.") 7 =? 0) eqn:E.
  - apply Z.eqb_eq in E. apply Hc in E.
    split; [|split; [|split; [|split]]]; try assumption.
    + split; [intros (e & s0 & H); discriminate | intros H; now exfalso].
    + intros H. now exfalso.
    + reflexivity.
  - apply Z.eqb_neq in E. rewrite Hc in E.
    split; [|split; [|split; [|split]]]; try assumption.
    + split; [intros _; exact E | intros _; eexists; eexists; reflexivity].
    + reflexivity.
    + intros H. now exfalso.
Qed.

Lemma protocol_token_check_witness :
  let s := start (chars "GET / http/1.x" ++ CRLF) in
  let tok := chars "http/1.x" ++ CRLF in
  (exits (read_request_line glibc_BUFSIZ request0 s)
   <-> map tolower (firstn 7 tok) <> chars "http/1.")
  /\ (map tolower (firstn 7 tok) <> chars "http/1." ->
      read_request_line glibc_BUFSIZ request0 s
      = Exit (parse_error_on_request_line_3 (chars "GET")) (start []))
  /\ (map tolower (firstn 7 tok) = chars "http/1." ->
      read_request_line glibc_BUFSIZ request0 s
      = Ret (mkRequest (atoi (skipn 7 tok)) (uppcase (chars "GET")) (chars "/")
                       [] None 0)
            (start []))
  /\ (forall n r,
        skipn 7 tok = print_int n ++ r -> - 2 ^ 31 <= n < 2 ^ 31 ->
        match r with [] => True | c :: _ => isdigit c = false end ->
        atoi (skipn 7 tok) = n)
  /\ (no_numeral (skipn 7 tok) = true -> atoi (skipn 7 tok) = 0).
Proof.
  apply (protocol_token_check glibc_BUFSIZ request0
           (start (chars "GET / http/1.x" ++ CRLF))
           (chars "GET / http/1.x" ++ CRLF) (start [])
           (chars "GET") (chars "/") (chars "http/1.x" ++ CRLF)).
  - vm_compute. reflexivity.
  - reflexivity.
  - vm_compute; intuition discriminate.
  - vm_compute; intuition discriminate.
Defined.

(** The prefix is not compared literally, and the minor version may be
    negative.  A line with its two spaces and a good token on the wire is
    refused when the buffer cuts the token short.  White space or a plus
    sign before the digits does not make the minor version 0. *)
Lemma protocol_token_lenient :
  (strcmp (firstn 7 (chars "http/1.1" ++ CRLF)) (chars "HTTP/1.") =? 0) = false
  /\ read_request_line glibc_BUFSIZ request0 (start (chars "GET / http/1.1" ++ CRLF))
     = Ret (mkRequest 1 (chars "GET") (chars "/") [] None 0) (start [])
  /\ read_request_line glibc_BUFSIZ request0 (start (chars "GET / HTTP/1.-7" ++ CRLF))
     = Ret (mkRequest (-7) (chars "GET") (chars "/") [] None 0) (start [])
  /\ read_request_line glibc_BUFSIZ request0
       (start (chars "GET /" ++ repeat "a"%char (Z.to_nat 8181)
               ++ chars " HTTP/1.1" ++ CRLF))
     = Exit (parse_error_on_request_line_3 (chars "GET")) (start (chars "/1.1" ++ CRLF))
  /\ read_request_line glibc_BUFSIZ request0 (start (chars "GET / HTTP/1. 7" ++ CRLF))
     = Ret (mkRequest 7 (chars "GET") (chars "/") [] None 0) (start [])
  /\ read_request_line glibc_BUFSIZ request0 (start (chars "GET / HTTP/1.+7" ++ CRLF))
     = Ret (mkRequest 7 (chars "GET") (chars "/") [] None 0) (start []).
Proof. repeat split; vm_compute; reflexivity. Qed.

(** ** The parser only reads *)

Lemma reads_only_ret {A} (a : A) : reads_only (ret a).
Proof. intros s. simpl. repeat split. now exists []. Qed.

Lemma reads_only_log_exit {A} e : reads_only (@log_exit A e).
Proof. intros s. simpl. repeat split. now exists []. Qed.

Lemma reads_only_bind {A B} (m : M A) (k : A -> M B) :
  reads_only m -> (forall a, reads_only (k a)) -> reads_only (bind m k).
Proof.
  intros Hm Hk s. unfold bind. specialize (Hm s).
  destruct (m s) as [a s1|e s1|]; [|exact Hm|exact I].
  specialize (Hk a s1). destruct Hm as (Ho & Hc & l & Hl).
  destruct (k a s1) as [b s2|e s2|]; [| |exact I];
    destruct Hk as (Ho' & Hc' & l' & Hl');
    (repeat split; [congruence | congruence |]);
    exists (l ++ l'); rewrite Hl, Hl'; now rewrite app_assoc.
Qed.

Lemma reads_only_fgets size : reads_only (fgets size).
Proof.
  intros s. destruct (fgets_total size s) as [H | (buf & s' & H)]; rewrite H.
  - repeat split. now exists [].
  - apply fgets_inv in H as (l & Hl & _ & Ho & Hc). repeat split; auto. now exists l.
Qed.

Lemma reads_only_fread n : reads_only (fread n).
Proof.
  intros s. unfold fread. destruct (List.length (st_in s) <? n)%nat; simpl.
  - repeat split. exists (st_in s). now rewrite app_nil_r.
  - repeat split. exists (firstn n (st_in s)). now rewrite firstn_skipn.
Qed.

Lemma reads_only_read_request_line BUFSIZ req :
  reads_only (read_request_line BUFSIZ req).
Proof.
  unfold read_request_line. apply reads_only_bind; [apply reads_only_fgets|].
  intros [buf|]; [|apply reads_only_log_exit].
  destruct (strchr buf SP) as [[m p]|]; [|apply reads_only_log_exit].
  destruct (strchr (tl p) SP) as [[pa p']|]; [|apply reads_only_log_exit].
  destruct (negb _); [apply reads_only_log_exit|apply reads_only_ret].
Qed.

Lemma reads_only_read_header_field BUFSIZ : reads_only (read_header_field BUFSIZ).
Proof.
  unfold read_header_field. apply reads_only_bind; [apply reads_only_fgets|].
  intros [buf|]; [|apply reads_only_log_exit].
  destruct (_ || _); [apply reads_only_ret|].
  destruct (strchr buf ":") as [[m p]|];
    [apply reads_only_ret|apply reads_only_log_exit].
Qed.

Lemma reads_only_read_header_fields BUFSIZ fuel hd :
  reads_only (read_header_fields BUFSIZ fuel hd).
Proof.
  revert hd. induction fuel as [|fuel IH]; intros hd; [intros s; exact I|].
  cbn [read_header_fields]. apply reads_only_bind; [apply reads_only_read_header_field|].
  intros [h|]; [apply IH|apply reads_only_ret].
Qed.

Lemma reads_only_read_headers BUFSIZ : reads_only (read_headers BUFSIZ).
Proof. intros s. unfold read_headers. apply reads_only_read_header_fields. Qed.

Lemma reads_only_content_length req : reads_only (content_length req).
Proof.
  unfold content_length. destruct (lookup_header_field_value _ _); [|apply reads_only_ret].
  destruct (_ <? _); [apply reads_only_log_exit|apply reads_only_ret].
Qed.

Lemma reads_only_read_request BUFSIZ : reads_only (read_request BUFSIZ).
Proof.
  unfold read_request.
  apply reads_only_bind; [apply reads_only_read_request_line|]. intros req.
  apply reads_only_bind; [apply reads_only_read_headers|]. intros hd.
  apply reads_only_bind; [apply reads_only_content_length|]. intros len.
  cbn [length]. destruct (negb _); [|apply reads_only_ret].
  destruct (_ >? _); [apply reads_only_log_exit|].
  apply reads_only_bind; [apply reads_only_fread|].
  intros [b|]; [apply reads_only_ret|apply reads_only_log_exit].
Qed.

(** ** The header loop ends *)

(** A turn of the loop that yields a field has consumed input. *)
Lemma read_header_field_consumes BUFSIZ s h s' :
  read_header_field BUFSIZ s = Ret (Some h) s' ->
  (List.length (st_in s') < List.length (st_in s))%nat.
Proof.
  unfold read_header_field, bind.
  destruct (fgets_total BUFSIZ s) as [H | (buf & s1 & H)]; rewrite H; [discriminate|].
  apply fgets_inv in H as (l & Hl & Hb & _).
  destruct (_ || _); [discriminate|].
  destruct (strchr buf ":") as [[m p]|] eqn:E; [|discriminate].
  intros [= _ <-]. rewrite Hl, length_app.
  apply strchr_some in E as (post & _ & E & _).
  assert (l <> []) by (apply cstr_nonempty; rewrite <- Hb, E; now destruct m).
  destruct l; [congruence|simpl; lia].
Qed.

(** With more turns allowed than there are bytes to read, the loop ends by
    itself, and the bound does not matter. *)
Lemma read_header_fields_fuel BUFSIZ fuel fuel' hd s :
  (List.length (st_in s) < fuel)%nat -> (List.length (st_in s) < fuel')%nat ->
  read_header_fields BUFSIZ fuel hd s = read_header_fields BUFSIZ fuel' hd s
  /\ read_header_fields BUFSIZ fuel hd s <> OutOfFuel.
Proof.
  revert fuel' hd s. induction fuel as [|fuel IH]; intros fuel' hd s H1 H2; [lia|].
  destruct fuel' as [|fuel']; [lia|].
  cbn [read_header_fields]. unfold bind.
  pose proof (reads_only_read_header_field BUFSIZ s) as Hr.
  destruct (read_header_field BUFSIZ s) as [[h|] s1|e s1|] eqn:E.
  - apply read_header_field_consumes in E. apply IH; lia.
  - split; [reflexivity|discriminate].
  - split; [reflexivity|discriminate].
  - exfalso. revert E. unfold read_header_field, bind.
    destruct (fgets_total BUFSIZ s) as [H | (buf & s1 & H)]; rewrite H; [discriminate|].
    destruct (_ || _); [discriminate|].
    destruct (strchr buf ":") as [[m p]|]; discriminate.
Qed.

Lemma read_headers_total BUFSIZ s : read_headers BUFSIZ s <> OutOfFuel.
Proof.
  unfold read_headers.
  apply (read_header_fields_fuel BUFSIZ _ (S (List.length (st_in s))) [] s); lia.
Qed.

(** ** The body *)

(** [read_request] once the request line and the header block are read. *)
Lemma read_request_after_headers BUFSIZ s req1 s1 hd s2 :
  read_request_line BUFSIZ request0 s = Ret req1 s1 ->
  read_headers BUFSIZ s1 = Ret hd s2 ->
  read_request BUFSIZ s
  = let mk b len := mkRequest (protocol_minor_version req1) (method req1)
                              (path req1) hd b len in
    match lookup_header_field_value hd (chars "Content-Length") with
    | None => Ret (mk None 0) s2
    | Some v =>
        if atol v <? 0 then Exit negative_content_length_value s2
        else if atol v =? 0 then Ret (mk None (atol v)) s2
        else if atol v >? MAX_REQUEST_BODY_LENGTH then Exit request_body_too_long s2
        else if (List.length (st_in s2) <? Z.to_nat (atol v))%nat
             then Exit failed_to_read_request_body (consumed s2 [])
             else Ret (mk (Some (firstn (Z.to_nat (atol v)) (st_in s2))) (atol v))
                      (consumed s2 (skipn (Z.to_nat (atol v)) (st_in s2)))
    end.
Proof.
  intros H1 H2. unfold read_request, bind. rewrite H1, H2.
  unfold content_length. cbn [header length protocol_minor_version method path body].
  destruct (lookup_header_field_value hd (chars "Content-Length")) as [v|];
    [|reflexivity].
  destruct (atol v <? 0); [reflexivity|]. unfold ret.
  destruct (atol v =? 0); cbn [negb]; [reflexivity|].
  destruct (atol v >? MAX_REQUEST_BODY_LENGTH); [reflexivity|].
  unfold fread. destruct (_ <? _)%nat; reflexivity.
Qed.

(** C4: a Content-Length that reads as a negative number makes the parser
    exit, and so the server, which has then written nothing; one above
    4194304 makes it exit with "request body too long" in the state the
    header block left, no byte of the body being read. *)
Theorem content_length_limits BUFSIZ w docroot s req1 s1 hd s2 v :
  read_request_line BUFSIZ request0 s = Ret req1 s1 ->
  read_headers BUFSIZ s1 = Ret hd s2 ->
  lookup_header_field_value hd (chars "Content-Length") = Some v ->
  st_out s2 = st_out s
  /\ (atol v < 0 ->
      read_request BUFSIZ s = Exit negative_content_length_value s2
      /\ service BUFSIZ w docroot s = Exit negative_content_length_value s2)
  /\ (atol v > 4194304 ->
      read_request BUFSIZ s = Exit request_body_too_long s2
      /\ service BUFSIZ w docroot s = Exit request_body_too_long s2).
Proof.
  intros H1 H2 Hv.
  pose proof (read_request_after_headers BUFSIZ s req1 s1 hd s2 H1 H2) as Hr.
  rewrite Hv in Hr. cbv zeta in Hr. split; [|split].
  - pose proof (reads_only_read_request_line BUFSIZ request0 s) as Ha.
    pose proof (reads_only_read_headers BUFSIZ s1) as Hb.
    rewrite H1 in Ha. rewrite H2 in Hb.
    destruct Ha as [Ha _], Hb as [Hb _]. congruence.
  - intros Hneg. apply Z.ltb_lt in Hneg. rewrite Hneg in Hr.
    unfold service, bind. now rewrite Hr.
  - intros Hbig.
    assert (E1 : (atol v <? 0) = false) by (apply Z.ltb_ge; lia).
    assert (E2 : (atol v =? 0) = false) by (apply Z.eqb_neq; lia).
    assert (E3 : (atol v >? MAX_REQUEST_BODY_LENGTH) = true)
      by (unfold MAX_REQUEST_BODY_LENGTH; apply Z.gtb_lt; lia).
    rewrite E1, E2, E3 in Hr. unfold service, bind. now rewrite Hr.
Qed.

(** C5: when the parser returns a request, its length is 0 and it has no
    body if there is no Content-Length field; if there is one, the length is
    its value, between 0 and the cap; in both cases the body is what was
    taken from the input after the header block, and it is [length] bytes
    long. *)
Theorem body_matches_content_length BUFSIZ s req s' :
  read_request BUFSIZ s = Ret req s' ->
  exists req1 s1 s2,
    read_request_line BUFSIZ request0 s = Ret req1 s1
    /\ read_headers BUFSIZ s1 = Ret (header req) s2
    /\ st_in s2 = body_bytes req ++ st_in s'
    /\ Z.of_nat (List.length (body_bytes req)) = length req
    /\ (lookup_header_field_value (header req) (chars "Content-Length") = None ->
        length req = 0 /\ body req = None)
    /\ (forall v,
          lookup_header_field_value (header req) (chars "Content-Length") = Some v ->
          length req = atol v /\ 0 <= atol v <= 4194304).
Proof.
  intros H.
  destruct (read_request_line BUFSIZ request0 s) as [req1 s1|e s1|] eqn:H1;
    try (unfold read_request, bind in H; rewrite H1 in H; discriminate).
  destruct (read_headers BUFSIZ s1) as [hd s2|e s2|] eqn:H2;
    try (unfold read_request, bind in H; rewrite H1, H2 in H; discriminate).
  rewrite (read_request_after_headers BUFSIZ s req1 s1 hd s2 H1 H2) in H.
  cbv zeta in H. exists req1, s1, s2.
  destruct (lookup_header_field_value hd (chars "Content-Length")) as [v|] eqn:Hv.
  - destruct (atol v <? 0) eqn:E1; [discriminate|].
    apply Z.ltb_ge in E1.
    destruct (atol v =? 0) eqn:E2.
    + injection H as <- <-. cbn [header body_bytes body length app].
      apply Z.eqb_eq in E2. rewrite Hv.
      split; [reflexivity|]. split; [assumption|]. split; [reflexivity|].
      split; [simpl; lia|]. split; [discriminate|].
      intros v' [= <-]. lia.
    + destruct (atol v >? MAX_REQUEST_BODY_LENGTH) eqn:E3; [discriminate|].
      destruct (_ <? _)%nat eqn:E4; [discriminate|].
      injection H as <- <-. cbn [header body_bytes body length consumed st_in].
      apply Nat.ltb_ge in E4.
      assert (atol v <= 4194304)
        by (destruct (Z.gtb_spec (atol v) MAX_REQUEST_BODY_LENGTH);
            [discriminate | unfold MAX_REQUEST_BODY_LENGTH in *; lia]).
      rewrite Hv.
      split; [reflexivity|]. split; [assumption|].
      split; [now rewrite firstn_skipn|].
      split; [rewrite length_firstn, Nat.min_l by assumption; lia|].
      split; [discriminate|].
      intros v' [= <-]. lia.
  - injection H as <- <-. cbn [header body_bytes body length app].
    rewrite Hv.
    split; [reflexivity|]. split; [assumption|]. split; [reflexivity|].
    split; [reflexivity|]. split; [intros _; split; reflexivity|].
    intros v' [=].
Qed.

Lemma content_length_limits_witness :
  let s := start negative_length_input in
  st_out (start (chars "abcd")) = st_out s
  /\ (atol (chars "-3" ++ CRLF) < 0 ->
      read_request glibc_BUFSIZ s
      = Exit negative_content_length_value (start (chars "abcd"))
      /\ service glibc_BUFSIZ empty_docroot_world (chars "/var/www") s
         = Exit negative_content_length_value (start (chars "abcd")))
  /\ (atol (chars "-3" ++ CRLF) > 4194304 ->
      read_request glibc_BUFSIZ s
      = Exit request_body_too_long (start (chars "abcd"))
      /\ service glibc_BUFSIZ empty_docroot_world (chars "/var/www") s
         = Exit request_body_too_long (start (chars "abcd"))).
Proof.
  apply (content_length_limits glibc_BUFSIZ empty_docroot_world (chars "/var/www")
           (start negative_length_input)
           (mkRequest 1 (chars "PUT") (chars "/x") [] None 0)
           (start (chars "Content-Length: -3" ++ CRLF ++ CRLF ++ chars "abcd"))
           [mkField (chars "Content-Length") (chars "-3" ++ CRLF)]
           (start (chars "abcd"))
           (chars "-3" ++ CRLF)).
  - vm_compute. reflexivity.
  - vm_compute. reflexivity.
  - vm_compute. reflexivity.
Defined.

(** A length one above the cap: the parser exits with the body unread. *)
Example body_too_long_exits :
  read_request glibc_BUFSIZ
    (start (chars "PUT /x HTTP/1.1" ++ CRLF ++ chars "Content-Length: 4194305"
            ++ CRLF ++ CRLF ++ chars "abcd"))
  = Exit request_body_too_long (start (chars "abcd")).
Proof. vm_compute. reflexivity. Qed.

Lemma body_matches_content_length_witness :
  exists req1 s1 s2,
    read_request_line glibc_BUFSIZ request0 (start post_with_body_input) = Ret req1 s1
    /\ read_headers glibc_BUFSIZ s1 = Ret (header post_with_body_request) s2
    /\ st_in s2 = body_bytes post_with_body_request ++ st_in (start (chars ", world"))
    /\ Z.of_nat (List.length (body_bytes post_with_body_request))
       = length post_with_body_request
    /\ (lookup_header_field_value (header post_with_body_request)
                                  (chars "Content-Length") = None ->
        length post_with_body_request = 0 /\ body post_with_body_request = None)
    /\ (forall v,
          lookup_header_field_value (header post_with_body_request)
                                    (chars "Content-Length") = Some v ->
          length post_with_body_request = atol v /\ 0 <= atol v <= 4194304).
Proof.
  apply (body_matches_content_length glibc_BUFSIZ (start post_with_body_input)
           post_with_body_request (start (chars ", world"))).
  vm_compute. reflexivity.
Defined.

(** C10, as the code has it: after the request line and the header block
    are parsed, a Content-Length whose value, after white space and an
    optional sign, does not begin with a digit (it may be empty) reads as
    0: the parser returns a request without a body, nothing is taken from
    the input after the header block, and the request is responded to. *)
Theorem content_length_without_numeral BUFSIZ w docroot s req1 s1 hd s2 v :
  read_request_line BUFSIZ request0 s = Ret req1 s1 ->
  read_headers BUFSIZ s1 = Ret hd s2 ->
  lookup_header_field_value hd (chars "Content-Length") = Some v ->
  no_numeral v = true ->
  let req := mkRequest (protocol_minor_version req1) (method req1) (path req1)
                       hd None 0 in
  atol v = 0
  /\ read_request BUFSIZ s = Ret req s2
  /\ service BUFSIZ w docroot s = respond_to BUFSIZ w req docroot s2.
Proof.
  intros H1 H2 Hv Hn req.
  assert (H0 : atol v = 0) by (unfold atol; now apply strtol_no_numeral).
  pose proof (read_request_after_headers BUFSIZ s req1 s1 hd s2 H1 H2) as Hr.
  rewrite Hv in Hr. cbv zeta in Hr. rewrite H0 in Hr. simpl in Hr.
  split; [assumption|]. split; [assumption|].
  unfold service, bind. now rewrite Hr.
Qed.

Lemma content_length_without_numeral_witness :
  let hd := [mkField (chars "Content-Length") (chars "twelve" ++ CRLF)] in
  let req := mkRequest 1 (chars "POST") (chars "/form") hd None 0 in
  atol (chars "twelve" ++ CRLF) = 0
  /\ read_request glibc_BUFSIZ (start wordy_length_input)
     = Ret req (start (chars "hello, world"))
  /\ service glibc_BUFSIZ empty_docroot_world (chars "/var/www")
             (start wordy_length_input)
     = respond_to glibc_BUFSIZ empty_docroot_world req (chars "/var/www")
                  (start (chars "hello, world")).
Proof.
  apply (content_length_without_numeral glibc_BUFSIZ empty_docroot_world
           (chars "/var/www") (start wordy_length_input)
           (mkRequest 1 (chars "POST") (chars "/form") [] None 0)
           (start (chars "Content-Length: twelve" ++ CRLF ++ CRLF
                   ++ chars "hello, world"))
           [mkField (chars "Content-Length") (chars "twelve" ++ CRLF)]
           (start (chars "hello, world"))
           (chars "twelve" ++ CRLF)).
  - vm_compute. reflexivity.
  - vm_compute. reflexivity.
  - vm_compute. reflexivity.
  - vm_compute. reflexivity.
Defined.

(** An empty value is such a value: the field stores the end of the line. *)
Example empty_content_length :
  no_numeral CRLF = true
  /\ read_request glibc_BUFSIZ
       (start (chars "GET / HTTP/1.1" ++ CRLF ++ chars "Content-Length:" ++ CRLF
               ++ CRLF))
     = Ret (mkRequest 1 (chars "GET") (chars "/")
                      [mkField (chars "Content-Length") CRLF] None 0)
           (start []).
Proof. split; vm_compute; reflexivity. Qed.

(** The claim as it was worded fails on values that are not numbers but
    begin with a numeral: [12 bytes] makes the parser take a body of 12
    bytes, and [-3x] makes it exit. *)
Lemma non_numeric_content_length_is_read :
  read_request glibc_BUFSIZ
    (start (chars "PUT /x HTTP/1.1" ++ CRLF ++ chars "Content-Length: 12 bytes"
            ++ CRLF ++ CRLF ++ chars "hello, world!"))
  = Ret (mkRequest 1 (chars "PUT") (chars "/x")
                   [mkField (chars "Content-Length") (chars "12 bytes" ++ CRLF)]
                   (Some (chars "hello, world")) 12)
        (start (chars "!"))
  /\ read_request glibc_BUFSIZ
       (start (chars "PUT /x HTTP/1.1" ++ CRLF ++ chars "Content-Length: -3x"
               ++ CRLF ++ CRLF ++ chars "abcd"))
     = Exit negative_content_length_value (start (chars "abcd")).
Proof. split; vm_compute; reflexivity. Qed.

(** ** The header store *)

Lemma split_at_colon_found pre post :
  ~ In ":"%char pre -> split_at_colon (pre ++ ":"%char :: post) = (pre, post).
Proof.
  induction pre as [|c pre IH]; intros H; cbn [app split_at_colon].
  - now rewrite is_char_refl.
  - destruct (is_char c ":") eqn:E.
    + apply is_char_true in E. exfalso. apply H. now left.
    + rewrite IH; [reflexivity|]. intros H'. apply H. now right.
Qed.

Lemma strspn_strip_blanks p : skipn (strspn p [SP; HT]) p = strip_blanks p.
Proof.
  induction p as [|c p IH]; [reflexivity|].
  cbn [strspn strip_blanks existsb]. rewrite orb_false_r.
  destruct (is_char c SP || is_char c HT); [exact IH|reflexivity].
Qed.

Lemma strchr_in s c :
  In c s -> exists pre post, strchr s c = Some (pre, c :: post)
                             /\ s = pre ++ c :: post /\ ~ In c pre.
Proof.
  intros H. destruct (strchr s c) as [[pre p]|] eqn:E.
  - destruct (strchr_some _ _ _ _ E) as (post & -> & -> & Hn). now exists pre, post.
  - apply strchr_none in E. contradiction.
Qed.

Lemma consumed_consumed s a b : consumed (consumed s a) b = consumed s b.
Proof. reflexivity. Qed.

Lemma read_header_field_line BUFSIZ s l rest :
  header_line BUFSIZ l -> st_in s = l ++ rest ->
  read_header_field BUFSIZ s = Ret (Some (field_of_line l)) (consumed s rest).
Proof.
  intros (l0 & -> & [Hz Hl] & Hc & Hn) Hs.
  rewrite <- app_assoc in Hs. cbn [app] in Hs.
  unfold read_header_field, bind.
  rewrite (fgets_line BUFSIZ s l0 rest Hs Hl Hz Hn).
  assert (Hc' : In ":"%char (l0 ++ [LF])) by (apply in_app_iff; now left).
  destruct (strchr_in _ _ Hc') as (pre & post & E & Hsplit & Hpre).
  assert (H1 : l0 ++ [LF] <> [LF]).
  { destruct l0 as [|a l0]; [destruct Hc|]. destruct l0; discriminate. }
  assert (H2 : l0 ++ [LF] <> CRLF).
  { destruct l0 as [|a [|b l0]]; [destruct Hc| |destruct l0; discriminate].
    intros [= ->]. destruct Hc as [Hc|[]]. discriminate. }
  rewrite (strcmp_eqb _ _ H1), (strcmp_eqb _ _ H2).
  cbn [orb]. rewrite E. cbn [tl]. unfold ret, field_of_line.
  rewrite Hsplit, split_at_colon_found by assumption.
  now rewrite strspn_strip_blanks.
Qed.

Lemma read_header_field_end BUFSIZ s t rest :
  t = [LF] \/ t = CRLF -> (2 < BUFSIZ)%nat -> st_in s = t ++ rest ->
  read_header_field BUFSIZ s = Ret None (consumed s rest).
Proof.
  intros Ht Hn Hs. unfold read_header_field, bind. destruct Ht as [-> | ->].
  - assert (Hf : fgets BUFSIZ s = Ret (Some ([] ++ [LF])) (consumed s rest)).
    { apply fgets_line; simpl; try tauto; try lia. }
    rewrite Hf. reflexivity.
  - assert (Hf : fgets BUFSIZ s = Ret (Some ([CR] ++ [LF])) (consumed s rest)).
    { apply fgets_line; simpl; try lia; try exact Hs;
        intros [H|[]]; discriminate. }
    rewrite Hf. reflexivity.
Qed.

Lemma read_header_fields_lines BUFSIZ ls :
  forall fuel hd s t rest,
    Forall (header_line BUFSIZ) ls ->
    t = [LF] \/ t = CRLF -> (2 < BUFSIZ)%nat ->
    st_in s = List.concat ls ++ t ++ rest ->
    (List.length ls < fuel)%nat ->
    read_header_fields BUFSIZ fuel hd s
    = Ret (rev (map field_of_line ls) ++ hd) (consumed s rest).
Proof.
  induction ls as [|l ls IH]; intros fuel hd s t rest Hall Ht Hn Hs Hf;
    (destruct fuel as [|fuel]; [simpl in Hf; lia|]); cbn [read_header_fields]; unfold bind.
  - cbn [List.concat app] in Hs. now rewrite (read_header_field_end BUFSIZ s t rest Ht Hn Hs).
  - inversion Hall as [|? ? Hl Hls]; subst.
    cbn [List.concat] in Hs. rewrite <- app_assoc in Hs.
    rewrite (read_header_field_line BUFSIZ s l _ Hl Hs).
    rewrite (IH fuel (field_of_line l :: hd)
                (consumed s (List.concat ls ++ t ++ rest)) t rest Hls Ht Hn eq_refl)
      by (simpl in Hf; lia).
    cbn [map rev]. rewrite <- app_assoc. reflexivity.
Qed.

Lemma header_lines_length BUFSIZ ls :
  Forall (header_line BUFSIZ) ls ->
  (List.length ls <= List.length (List.concat ls))%nat.
Proof.
  induction 1 as [|l ls (l0 & -> & _) _ IH]; [reflexivity|].
  cbn [List.concat List.length]. rewrite !length_app. simpl. lia.
Qed.

Lemma lookup_app_none a b nm :
  (forall g, In g a -> map tolower (name g) <> map tolower nm) ->
  lookup_header_field_value (a ++ b) nm = lookup_header_field_value b nm.
Proof.
  induction a as [|f a IH]; intros H; [reflexivity|].
  cbn [app lookup_header_field_value].
  destruct (strcasecmp (name f) nm =? 0) eqn:E.
  - apply Z.eqb_eq, strcasecmp_eq in E. exfalso. apply (H f); [now left|assumption].
  - apply IH. intros g Hg. apply H. now right.
Qed.

Lemma lookup_last_appearance fs nm pre f post :
  fs = pre ++ f :: post ->
  map tolower (name f) = map tolower nm ->
  (forall g, In g post -> map tolower (name g) <> map tolower nm) ->
  lookup_header_field_value (rev fs) nm = Some (value f).
Proof.
  intros -> Hf Hpost. rewrite rev_app_distr. cbn [rev]. rewrite <- app_assoc.
  rewrite lookup_app_none.
  - cbn [app lookup_header_field_value].
    apply strcasecmp_eq in Hf. now rewrite Hf.
  - intros g Hg. apply Hpost. now apply in_rev.
Qed.

Lemma lookup_absent fs nm :
  (forall g, In g fs -> map tolower (name g) <> map tolower nm) ->
  lookup_header_field_value fs nm = None.
Proof.
  intros H. rewrite <- (app_nil_r fs). now rewrite lookup_app_none.
Qed.

Lemma read_header_fields_arrival BUFSIZ fuel :
  forall hd0 s hd s',
    read_header_fields BUFSIZ fuel hd0 s = Ret hd s' ->
    exists fs, arrival BUFSIZ s fs s' /\ hd = rev fs ++ hd0.
Proof.
  induction fuel as [|fuel IH]; intros hd0 s hd s' H; [discriminate|].
  cbn [read_header_fields] in H. unfold bind in H.
  destruct (read_header_field BUFSIZ s) as [[f|] s1|e s1|] eqn:E; try discriminate.
  - destruct (IH _ _ _ _ H) as (fs & Ha & ->).
    exists (f :: fs). split; [now apply arrival_field with s1|].
    cbn [rev]. now rewrite <- app_assoc.
  - injection H as <- <-. exists []. split; [now apply arrival_end|reflexivity].
Qed.

Lemma arrival_lines BUFSIZ ls :
  forall s t rest,
    Forall (header_line BUFSIZ) ls ->
    t = [LF] \/ t = CRLF -> (2 < BUFSIZ)%nat ->
    st_in s = List.concat ls ++ t ++ rest ->
    arrival BUFSIZ s (map field_of_line ls) (consumed s rest).
Proof.
  induction ls as [|l ls IH]; intros s t rest Hall Ht Hn Hs.
  - apply arrival_end. now apply read_header_field_end with t.
  - inversion Hall as [|? ? Hl Hls]; subst.
    cbn [List.concat] in Hs. rewrite <- app_assoc in Hs.
    cbn [map]. apply arrival_field with (consumed s (List.concat ls ++ t ++ rest)).
    + now apply read_header_field_line.
    + rewrite <- (consumed_consumed s (List.concat ls ++ t ++ rest) rest).
      now apply IH with t.
Qed.

(** C9: whatever the parser reads as the header block, the store holds
    the fields in the reverse of the order in which they arrived, one entry
    for each field whatever its name; header lines on the wire, each ended
    by a newline and fitting the line buffer, arrive as their fields, one
    after the other; and looking a name up, without regard to letter case,
    gives the value of the last arrived field that bears it. *)
Theorem header_store_order BUFSIZ :
  (forall s hd s',
      read_headers BUFSIZ s = Ret hd s' ->
      exists fs, arrival BUFSIZ s fs s' /\ hd = rev fs
                 /\ List.length hd = List.length fs)
  /\ (forall s0 req1 s req s',
        read_request_line BUFSIZ request0 s0 = Ret req1 s ->
        read_request BUFSIZ s0 = Ret req s' ->
        exists fs s2, arrival BUFSIZ s fs s2 /\ header req = rev fs)
  /\ (forall s ls t rest,
        Forall (header_line BUFSIZ) ls ->
        t = [LF] \/ t = CRLF -> (2 < BUFSIZ)%nat ->
        st_in s = List.concat ls ++ t ++ rest ->
        arrival BUFSIZ s (map field_of_line ls) (consumed s rest)
        /\ read_headers BUFSIZ s
           = Ret (rev (map field_of_line ls)) (consumed s rest))
  /\ (forall fs nm pre f post,
        fs = pre ++ f :: post ->
        map tolower (name f) = map tolower nm ->
        (forall g, In g post -> map tolower (name g) <> map tolower nm) ->
        lookup_header_field_value (rev fs) nm = Some (value f))
  /\ (forall fs nm,
        (forall g, In g fs -> map tolower (name g) <> map tolower nm) ->
        lookup_header_field_value (rev fs) nm = None).
Proof.
  split; [|split; [|split; [|split]]].
  - intros s hd s' H. unfold read_headers in H.
    destruct (read_header_fields_arrival _ _ _ _ _ _ H) as (fs & Ha & ->).
    exists fs. rewrite app_nil_r. split; [assumption|].
    split; [reflexivity|apply length_rev].
  - intros s0 req1 s req s' H1 Hr.
    destruct (read_headers BUFSIZ s) as [hd s2|e s2|] eqn:H2;
      try (unfold read_request, bind in Hr; rewrite H1, H2 in Hr; discriminate).
    rewrite (read_request_after_headers BUFSIZ s0 req1 s hd s2 H1 H2) in Hr.
    cbv zeta in Hr. unfold read_headers in H2.
    destruct (read_header_fields_arrival _ _ _ _ _ _ H2) as (fs & Ha & ->).
    rewrite app_nil_r in Hr. exists fs, s2. split; [assumption|].
    destruct (lookup_header_field_value _ _);
      repeat (match type of Hr with
              | (if ?b then _ else _) = _ => destruct b
              end; try discriminate);
      now injection Hr as <- _.
  - intros s ls t rest Hall Ht Hn Hs. split; [now apply arrival_lines with t|].
    unfold read_headers.
    rewrite (read_header_fields_lines BUFSIZ ls _ [] s t rest Hall Ht Hn Hs).
    + now rewrite app_nil_r.
    + pose proof (header_lines_length BUFSIZ ls Hall).
      rewrite Hs, length_app. lia.
  - intros fs nm pre f post. apply lookup_last_appearance.
  - intros fs nm H. apply lookup_absent. intros g Hg. apply H. now apply in_rev.
Qed.

Lemma tagged_lines_are_header_lines :
  Forall (header_line glibc_BUFSIZ) tagged_lines.
Proof.
  repeat constructor.
  - exists (chars "Host: a" ++ [CR]). repeat split;
      try (vm_compute; intuition discriminate).
    apply Nat.ltb_lt. vm_compute. reflexivity.
  - exists (chars "X-Tag:  1" ++ [CR]). repeat split;
      try (vm_compute; intuition discriminate).
    apply Nat.ltb_lt. vm_compute. reflexivity.
  - exists (chars "x-tag:2" ++ [CR]). repeat split;
      try (vm_compute; intuition discriminate).
    apply Nat.ltb_lt. vm_compute. reflexivity.
Defined.

Lemma header_store_order_witness :
  let s := start (List.concat tagged_lines ++ CRLF ++ chars "body") in
  arrival glibc_BUFSIZ s (map field_of_line tagged_lines) (consumed s (chars "body"))
  /\ read_headers glibc_BUFSIZ s
     = Ret (rev (map field_of_line tagged_lines)) (consumed s (chars "body")).
Proof.
  apply (proj1 (proj2 (proj2 (header_store_order glibc_BUFSIZ)))
           (start (List.concat tagged_lines ++ CRLF ++ chars "body"))
           tagged_lines CRLF (chars "body")).
  - exact tagged_lines_are_header_lines.
  - now right.
  - apply Nat.ltb_lt. vm_compute. reflexivity.
  - reflexivity.
Defined.

(** The store of these three lines, and the name they share looked up. *)
Example tagged_lines_store :
  rev (map field_of_line tagged_lines)
  = [mkField (chars "x-tag") (chars "2" ++ CRLF);
     mkField (chars "X-Tag") (chars "1" ++ CRLF);
     mkField (chars "Host") (chars "a" ++ CRLF)]
  /\ lookup_header_field_value (rev (map field_of_line tagged_lines)) (chars "X-TAG")
     = Some (chars "2" ++ CRLF).
Proof. split; vm_compute; reflexivity. Qed.


(** ** The bounds of the loops are never reached *)

Lemma read_request_total BUFSIZ s : read_request BUFSIZ s <> OutOfFuel.
Proof.
  unfold read_request, bind.
  destruct (read_request_line BUFSIZ request0 s) as [req1 s1|e s1|] eqn:H1.
  - pose proof (read_headers_total BUFSIZ s1) as Ht.
    destruct (read_headers BUFSIZ s1) as [hd s2|e s2|]; [|discriminate|congruence].
    unfold content_length. cbn [header length].
    destruct (lookup_header_field_value hd (chars "Content-Length")) as [v|];
      [destruct (atol v <? 0); [discriminate|]|]; unfold ret;
      (destruct (negb _); [|discriminate]);
      (destruct (_ >? _); [discriminate|]);
      unfold fread; destruct (_ <? _)%nat; discriminate.
  - discriminate.
  - exfalso. revert H1. unfold read_request_line, bind.
    destruct (fgets_total BUFSIZ s) as [H | (buf & s1 & H)]; rewrite H; [discriminate|].
    destruct (strchr buf SP) as [[m p]|]; [|discriminate].
    destruct (strchr (tl p) SP) as [[pa p']|]; [|discriminate].
    destruct (negb _); discriminate.
Qed.

Lemma copy_file_total BUFSIZ fuel file s :
  (List.length file < fuel)%nat -> copy_file BUFSIZ fuel file s <> OutOfFuel.
Proof.
  destruct BUFSIZ as [|b].
  - destruct fuel; [lia|]. discriminate.
  - intros H. rewrite copy_file_ok by (auto; lia). discriminate.
Qed.

Lemma respond_to_total BUFSIZ w req docroot s :
  respond_to BUFSIZ w req docroot s <> OutOfFuel.
Proof.
  assert (Hc : forall status s0, output_common_header_fields w req status s0 <> OutOfFuel).
  { intros status s0. destruct (w_date w) as [d|] eqn:Hd.
    - rewrite output_common_header_fields_ok with (date := d) by assumption. discriminate.
    - rewrite output_common_header_fields_gmtime by assumption. discriminate. }
  assert (Hf : do_file_response BUFSIZ w req docroot s <> OutOfFuel).
  { destruct (w_date w) as [d|] eqn:Hd.
    - destruct (w_fs w (build_fspath docroot (path req))) as [n|] eqn:Hn.
      + destruct n as [size c r| | | | | |];
          try (rewrite do_file_response_not_found with (date := d);
               [discriminate | assumption | intros n' c' r'; rewrite Hn; discriminate]).
        rewrite (do_file_response_found BUFSIZ w req docroot d size c r s Hd Hn).
        destruct (_ =? 0); [discriminate|].
        destruct r; [apply copy_file_total; lia|discriminate].
      + rewrite do_file_response_not_found with (date := d);
          [discriminate | assumption | intros n' c' r'; rewrite Hn; discriminate].
    - unfold do_file_response, bind. rewrite get_fileinfo_eq.
      destruct (negb _); [apply Hc|].
      rewrite output_common_header_fields_gmtime by assumption. discriminate. }
  unfold respond_to.
  destruct (_ =? 0); [exact Hf|].
  destruct (_ =? 0); [exact Hf|].
  destruct (_ =? 0); apply Hc.
Qed.

(** A run of the server returns or exits. *)
Lemma service_total BUFSIZ w docroot s :
  service BUFSIZ w docroot s <> OutOfFuel.
Proof.
  unfold service, bind. pose proof (read_request_total BUFSIZ s) as Hr.
  destruct (read_request BUFSIZ s) as [req s1|e s1|]; [|discriminate|congruence].
  apply respond_to_total.
Qed.

(** ** What the parser stores are C strings *)

Lemma uppcase_no_NUL str : ~ In NUL str -> ~ In NUL (uppcase str).
Proof.
  intros H Hin. rewrite uppcase_spec in Hin. apply in_map_iff in Hin as (c & Hc & Hin).
  assert (c = NUL) as ->; [|contradiction].
  revert Hc. destruct c as [[] [] [] [] [] [] [] []]; vm_compute; congruence.
Qed.

Lemma skipn_no_NUL n (s : cstring) : ~ In NUL s -> ~ In NUL (skipn n s).
Proof.
  intros H Hin. apply H. rewrite <- (firstn_skipn n s). apply in_app_iff. now right.
Qed.

Lemma read_request_line_cstrings BUFSIZ req s r s' :
  read_request_line BUFSIZ req s = Ret r s' ->
  ~ In NUL (method r) /\ ~ In NUL (path r).
Proof.
  unfold read_request_line, bind.
  destruct (fgets_total BUFSIZ s) as [H | (buf & s1 & H)]; rewrite H; [discriminate|].
  apply fgets_inv in H as (l & _ & Hb & _).
  assert (Hz : ~ In NUL buf) by (rewrite Hb; apply cstr_no_NUL).
  destruct (strchr buf SP) as [[m p]|] eqn:E1; [|discriminate].
  destruct (strchr_some _ _ _ _ E1) as (post & -> & -> & _). cbn [tl].
  destruct (strchr post SP) as [[pa p']|] eqn:E2; [|discriminate].
  destruct (strchr_some _ _ _ _ E2) as (post' & -> & -> & _).
  destruct (negb _); [discriminate|]. intros [= <- _]. cbn [method path].
  split.
  - apply uppcase_no_NUL. intros Hin. apply Hz. apply in_app_iff. now left.
  - intros Hin. apply Hz. apply in_app_iff. right. right. apply in_app_iff. now left.
Qed.

Lemma read_header_field_cstrings BUFSIZ s f s' :
  read_header_field BUFSIZ s = Ret (Some f) s' ->
  ~ In NUL (name f) /\ ~ In NUL (value f).
Proof.
  unfold read_header_field, bind.
  destruct (fgets_total BUFSIZ s) as [H | (buf & s1 & H)]; rewrite H; [discriminate|].
  apply fgets_inv in H as (l & _ & Hb & _).
  assert (Hz : ~ In NUL buf) by (rewrite Hb; apply cstr_no_NUL).
  destruct (_ || _); [discriminate|].
  destruct (strchr buf ":") as [[m p]|] eqn:E; [|discriminate].
  destruct (strchr_some _ _ _ _ E) as (post & -> & -> & _). cbn [tl].
  intros [= <- _]. cbn [name value]. split.
  - intros Hin. apply Hz. apply in_app_iff. now left.
  - apply skipn_no_NUL. intros Hin. apply Hz. apply in_app_iff. right. now right.
Qed.

(** A numeral followed by other characters is read as far as it goes. *)
Example content_length_leading_numeral :
  no_numeral (chars "2abc" ++ CRLF) = false
  /\ read_request glibc_BUFSIZ
       (start (chars "PUT /x HTTP/1.1" ++ CRLF ++ chars "Content-Length: 2abc"
               ++ CRLF ++ CRLF ++ chars "hello"))
     = Ret (mkRequest 1 (chars "PUT") (chars "/x")
                      [mkField (chars "Content-Length") (chars "2abc" ++ CRLF)]
                      (Some (chars "he")) 2)
           (start (chars "llo")).
Proof. split; vm_compute; reflexivity. Qed.

(** * Further properties of the code *)

(** ** Requests that do not parse *)

(** X1: when the parser exits, the server exits the same way, and up to
    then nothing was written and no call of the file system was made. *)
Theorem parse_failure_is_silent BUFSIZ w docroot s e s' :
  read_request BUFSIZ s = Exit e s' ->
  service BUFSIZ w docroot s = Exit e s'
  /\ st_out s' = st_out s /\ st_calls s' = st_calls s.
Proof.
  intros H. pose proof (reads_only_read_request BUFSIZ s) as Hr.
  rewrite H in Hr. destruct Hr as (Ho & Hc & _).
  split; [|split; assumption]. unfold service, bind. now rewrite H.
Qed.

Lemma parse_failure_is_silent_witness :
  service glibc_BUFSIZ index_world (chars "/var/www")
          (start (chars "GET /index.html" ++ CRLF))
  = Exit (parse_error_on_request_line_2 (chars "GET")) (start [])
  /\ st_out (start []) = st_out (start (chars "GET /index.html" ++ CRLF))
  /\ st_calls (start []) = st_calls (start (chars "GET /index.html" ++ CRLF)).
Proof.
  apply (parse_failure_is_silent glibc_BUFSIZ index_world (chars "/var/www")
           (start (chars "GET /index.html" ++ CRLF))).
  vm_compute. reflexivity.
Defined.

(** X2: a declared length between 1 and the cap: when the input after the
    header block is shorter, the parser exits, having read the input to its
    end; otherwise it takes that many bytes as the body and leaves the rest.
    The cap itself, 4194304, is a length that is accepted. *)
Theorem declared_body_is_read_or_fatal BUFSIZ s req1 s1 hd s2 v :
  read_request_line BUFSIZ request0 s = Ret req1 s1 ->
  read_headers BUFSIZ s1 = Ret hd s2 ->
  lookup_header_field_value hd (chars "Content-Length") = Some v ->
  0 < atol v <= 4194304 ->
  (Z.of_nat (List.length (st_in s2)) < atol v ->
   read_request BUFSIZ s = Exit failed_to_read_request_body (consumed s2 []))
  /\ (atol v <= Z.of_nat (List.length (st_in s2)) ->
      read_request BUFSIZ s
      = Ret (mkRequest (protocol_minor_version req1) (method req1) (path req1) hd
                       (Some (firstn (Z.to_nat (atol v)) (st_in s2))) (atol v))
            (consumed s2 (skipn (Z.to_nat (atol v)) (st_in s2)))).
Proof.
  intros H1 H2 Hv Hr.
  rewrite (read_request_after_headers BUFSIZ s req1 s1 hd s2 H1 H2), Hv. cbv zeta.
  assert (E1 : (atol v <? 0) = false) by (apply Z.ltb_ge; lia).
  assert (E2 : (atol v =? 0) = false) by (apply Z.eqb_neq; lia).
  assert (E3 : (atol v >? MAX_REQUEST_BODY_LENGTH) = false).
  { unfold MAX_REQUEST_BODY_LENGTH.
    destruct (Z.gtb_spec (atol v) 4194304); [lia|reflexivity]. }
  rewrite E1, E2, E3. split; intros H.
  - assert (E4 : (List.length (st_in s2) <? Z.to_nat (atol v))%nat = true)
      by (apply Nat.ltb_lt; lia).
    now rewrite E4.
  - assert (E4 : (List.length (st_in s2) <? Z.to_nat (atol v))%nat = false)
      by (apply Nat.ltb_ge; lia).
    now rewrite E4.
Qed.

Lemma declared_body_is_read_or_fatal_witness :
  let s := start (chars "PUT /x HTTP/1.1" ++ CRLF ++ chars "Content-Length: 9"
                  ++ CRLF ++ CRLF ++ chars "abcd") in
  let hd := [mkField (chars "Content-Length") (chars "9" ++ CRLF)] in
  let s2 := start (chars "abcd") in
  (Z.of_nat (List.length (st_in s2)) < atol (chars "9" ++ CRLF) ->
   read_request glibc_BUFSIZ s = Exit failed_to_read_request_body (consumed s2 []))
  /\ (atol (chars "9" ++ CRLF) <= Z.of_nat (List.length (st_in s2)) ->
      read_request glibc_BUFSIZ s
      = Ret (mkRequest 1 (chars "PUT") (chars "/x") hd
                       (Some (firstn (Z.to_nat (atol (chars "9" ++ CRLF))) (st_in s2)))
                       (atol (chars "9" ++ CRLF)))
            (consumed s2 (skipn (Z.to_nat (atol (chars "9" ++ CRLF))) (st_in s2)))).
Proof.
  apply (declared_body_is_read_or_fatal glibc_BUFSIZ
           (start (chars "PUT /x HTTP/1.1" ++ CRLF ++ chars "Content-Length: 9"
                   ++ CRLF ++ CRLF ++ chars "abcd"))
           (mkRequest 1 (chars "PUT") (chars "/x") [] None 0)
           (start (chars "Content-Length: 9" ++ CRLF ++ CRLF ++ chars "abcd"))
           [mkField (chars "Content-Length") (chars "9" ++ CRLF)]
           (start (chars "abcd")) (chars "9" ++ CRLF)).
  - vm_compute. reflexivity.
  - vm_compute. reflexivity.
  - vm_compute. reflexivity.
  - vm_compute. split; [reflexivity | discriminate].
Defined.

Lemma strtol_print_nat_clamped n r :
  0 <= n ->
  match r with [] => True | c :: _ => isdigit c = false end ->
  strtol (print_nat n ++ r) = Z.min LONG_MAX n.
Proof.
  intros Hn Hr.
  destruct (print_nat_spec n r) as (_ & Hv & d & ds & Hp & Hd); [lia|assumption|].
  unfold strtol, signed_value. rewrite Hp in *. cbn [app skip_spaces].
  rewrite (isdigit_not_space _ Hd).
  destruct (isdigit_not_sign _ Hd) as [-> ->].
  cbn [app] in Hv. rewrite Hv. unfold LONG_MAX, LONG_MIN in *. lia.
Qed.

(** X3: a Content-Length written as a decimal numeral above 4194304 makes
    the parser exit with "request body too long" however large the numeral
    is: a value beyond the range of [long] is clamped, it does not wrap
    around to a small or negative length. *)
Theorem content_length_never_wraps BUFSIZ s req1 s1 hd s2 n r :
  read_request_line BUFSIZ request0 s = Ret req1 s1 ->
  read_headers BUFSIZ s1 = Ret hd s2 ->
  lookup_header_field_value hd (chars "Content-Length") = Some (print_nat n ++ r) ->
  match r with [] => True | c :: _ => isdigit c = false end ->
  4194304 < n ->
  read_request BUFSIZ s = Exit request_body_too_long s2.
Proof.
  intros H1 H2 Hv Hr Hn.
  rewrite (read_request_after_headers BUFSIZ s req1 s1 hd s2 H1 H2), Hv. cbv zeta.
  assert (Ha : atol (print_nat n ++ r) = Z.min LONG_MAX n)
    by (unfold atol; apply strtol_print_nat_clamped; [lia|assumption]).
  rewrite Ha.
  assert (Hm : 4194304 < Z.min LONG_MAX n) by (unfold LONG_MAX; lia).
  assert (E1 : (Z.min LONG_MAX n <? 0) = false) by (apply Z.ltb_ge; lia).
  assert (E2 : (Z.min LONG_MAX n =? 0) = false) by (apply Z.eqb_neq; lia).
  assert (E3 : (Z.min LONG_MAX n >? MAX_REQUEST_BODY_LENGTH) = true)
    by (unfold MAX_REQUEST_BODY_LENGTH; apply Z.gtb_lt; lia).
  now rewrite E1, E2, E3.
Qed.

Lemma content_length_never_wraps_witness :
  read_request glibc_BUFSIZ
    (start (chars "PUT /x HTTP/1.1" ++ CRLF
            ++ chars "Content-Length: 18446744073709551621" ++ CRLF ++ CRLF
            ++ chars "abcde"))
  = Exit request_body_too_long (start (chars "abcde")).
Proof.
  apply (content_length_never_wraps glibc_BUFSIZ
           (start (chars "PUT /x HTTP/1.1" ++ CRLF
                   ++ chars "Content-Length: 18446744073709551621" ++ CRLF ++ CRLF
                   ++ chars "abcde"))
           (mkRequest 1 (chars "PUT") (chars "/x") [] None 0)
           (start (chars "Content-Length: 18446744073709551621" ++ CRLF ++ CRLF
                   ++ chars "abcde"))
           [mkField (chars "Content-Length") (chars "18446744073709551621" ++ CRLF)]
           (start (chars "abcde")) (2 ^ 64 + 5) CRLF).
  - vm_compute. reflexivity.
  - vm_compute. reflexivity.
  - vm_compute. reflexivity.
  - reflexivity.
  - reflexivity.
Defined.

(** X4: a line of the header block that is not empty and holds no colon
    makes the parser exit; a line of blanks is such a line, it does not end
    the block. *)
Theorem header_line_without_colon BUFSIZ s l0 rest :
  st_in s = l0 ++ LF :: rest ->
  text l0 -> ~ In ":"%char l0 -> l0 <> [] -> l0 <> [CR] ->
  (List.length (l0 ++ [LF]) < BUFSIZ)%nat ->
  read_header_field BUFSIZ s
  = Exit (parse_error_on_request_header_field (l0 ++ [LF])) (consumed s rest).
Proof.
  intros Hs [Hz Hl] Hc H1 H2 Hn. unfold read_header_field, bind.
  rewrite (fgets_line BUFSIZ s l0 rest Hs Hl Hz Hn).
  assert (E1 : l0 ++ [LF] <> [LF])
    by (destruct l0 as [|a l]; [congruence | destruct l; discriminate]).
  assert (E2 : l0 ++ [LF] <> CRLF).
  { destruct l0 as [|a [|b l]]; [congruence | | destruct l; discriminate].
    intros [= ->]. now apply H2. }
  rewrite (strcmp_eqb _ _ E1), (strcmp_eqb _ _ E2). cbn [orb].
  assert (Hc' : ~ In ":"%char (l0 ++ [LF])).
  { rewrite in_app_iff. intros [H|[H|[]]]; [auto|discriminate]. }
  apply strchr_none in Hc'. now rewrite Hc'.
Qed.

Lemma header_line_without_colon_witness :
  read_header_field glibc_BUFSIZ (start (chars "  " ++ CRLF ++ chars "Host: a" ++ CRLF))
  = Exit (parse_error_on_request_header_field (chars "  " ++ CRLF))
         (consumed (start (chars "  " ++ CRLF ++ chars "Host: a" ++ CRLF))
                   (chars "Host: a" ++ CRLF)).
Proof.
  apply (header_line_without_colon glibc_BUFSIZ
           (start (chars "  " ++ CRLF ++ chars "Host: a" ++ CRLF))
           (chars "  " ++ [CR]) (chars "Host: a" ++ CRLF)).
  - reflexivity.
  - split; vm_compute; intuition discriminate.
  - vm_compute; intuition discriminate.
  - discriminate.
  - discriminate.
  - apply Nat.ltb_lt. vm_compute. reflexivity.
Defined.

Lemma read_header_fields_unended BUFSIZ ls :
  forall fuel hd s,
    Forall (header_line BUFSIZ) ls ->
    st_in s = List.concat ls ->
    (List.length ls < fuel)%nat ->
    read_header_fields BUFSIZ fuel hd s
    = Exit failed_to_read_request_header_field (consumed s []).
Proof.
  induction ls as [|l ls IH]; intros fuel hd s Hall Hs Hf;
    (destruct fuel as [|fuel]; [simpl in Hf; lia|]); cbn [read_header_fields]; unfold bind.
  - cbn [List.concat] in Hs. unfold read_header_field, bind.
    rewrite fgets_eof by assumption. unfold log_exit, consumed.
    rewrite <- Hs. now destruct s.
  - inversion Hall as [|? ? Hl Hls]; subst. cbn [List.concat] in Hs.
    rewrite (read_header_field_line BUFSIZ s l _ Hl Hs).
    rewrite (IH fuel (field_of_line l :: hd) (consumed s (List.concat ls)) Hls eq_refl)
      by (simpl in Hf; lia).
    reflexivity.
Qed.

(** X5: a header block that the input ends before its empty line, however
    many well-formed header lines came, makes the parser exit with "failed
    to read request header field"; all of the input has been read then. *)
Theorem unended_header_block_exits BUFSIZ s ls :
  Forall (header_line BUFSIZ) ls ->
  st_in s = List.concat ls ->
  read_headers BUFSIZ s
  = Exit failed_to_read_request_header_field (consumed s []).
Proof.
  intros Hall Hs. unfold read_headers.
  apply read_header_fields_unended with ls; try assumption.
  pose proof (header_lines_length BUFSIZ ls Hall). rewrite Hs. lia.
Qed.

Lemma unended_header_block_exits_witness :
  read_headers glibc_BUFSIZ (start (List.concat tagged_lines))
  = Exit failed_to_read_request_header_field
         (consumed (start (List.concat tagged_lines)) []).
Proof.
  apply (unended_header_block_exits glibc_BUFSIZ
           (start (List.concat tagged_lines)) tagged_lines).
  - exact tagged_lines_are_header_lines.
  - reflexivity.
Defined.

(** ** What a line buffer holds *)

Lemma read_line_lf_only_last n s : lf_only_last (fst (read_line n s)) = true.
Proof.
  revert s. induction n as [|n IH]; intros [|c s]; try reflexivity.
  cbn [read_line]. destruct (is_char c LF) eqn:E.
  - cbn [fst lf_only_last]. now rewrite E.
  - specialize (IH s). destruct (read_line n s) as [l r].
    cbn [fst lf_only_last] in *. now rewrite E.
Qed.

Lemma read_line_length n s : (List.length (fst (read_line n s)) <= n)%nat.
Proof.
  revert s. induction n as [|n IH]; intros [|c s]; simpl; try lia.
  destruct (is_char c LF); simpl; [lia|].
  specialize (IH s). destruct (read_line n s) as [l r]. simpl in *. lia.
Qed.

Lemma read_line_all n l :
  lf_only_last l = true -> (List.length l <= n)%nat -> read_line n l = (l, []).
Proof.
  revert n. induction l as [|c l IH]; intros n Hl Hn; [now destruct n|].
  destruct n as [|n]; [simpl in Hn; lia|]. cbn [read_line].
  cbn [lf_only_last] in Hl. destruct (is_char c LF).
  - destruct l; [reflexivity|discriminate].
  - rewrite IH; [reflexivity | assumption | simpl in Hn; lia].
Qed.

Lemma read_line_full a b :
  ~ In LF a -> read_line (List.length a) (a ++ b) = (a, b).
Proof.
  induction a as [|c a IH]; intros H; [now destruct b|].
  cbn [List.length app read_line]. destruct (is_char c LF) eqn:E.
  - apply is_char_true in E. exfalso. apply H. now left.
  - rewrite IH; [reflexivity|]. intros Hin. apply H. now right.
Qed.

Lemma cstr_lf_only_last l : lf_only_last l = true -> lf_only_last (cstr l) = true.
Proof.
  induction l as [|c l IH]; [reflexivity|]. cbn [lf_only_last cstr].
  destruct (is_char c NUL) eqn:Ez; [reflexivity|].
  destruct (is_char c LF) eqn:El; cbn [lf_only_last]; rewrite El.
  - destruct l; [reflexivity|discriminate].
  - exact IH.
Qed.

Lemma cstr_length l : (List.length (cstr l) <= List.length l)%nat.
Proof.
  induction l as [|c l IH]; simpl; [lia|]. destruct (is_char c NUL); simpl; lia.
Qed.

Lemma lf_only_last_split m x :
  lf_only_last (m ++ x) = true -> x <> [] ->
  ~ In LF m /\ lf_only_last x = true.
Proof.
  induction m as [|c m IH]; intros H Hx; [split; [tauto|assumption]|].
  cbn [app lf_only_last] in H. destruct (is_char c LF) eqn:E.
  - destruct (m ++ x) eqn:Em; [|discriminate].
    apply app_eq_nil in Em as [_ ->]. congruence.
  - apply is_char_false in E. destruct (IH H Hx) as [Hm Hl].
    split; [|assumption]. intros [Hin|Hin]; [congruence|contradiction].
Qed.

Lemma lf_only_last_app m x :
  ~ In LF m -> lf_only_last x = true -> lf_only_last (m ++ x) = true.
Proof.
  induction m as [|c m IH]; intros Hm Hx; [assumption|].
  cbn [app lf_only_last]. destruct (is_char c LF) eqn:E.
  - apply is_char_true in E. exfalso. apply Hm. now left.
  - apply IH; [|assumption]. intros Hin. apply Hm. now right.
Qed.

Lemma strip_blanks_lf_only_last v :
  lf_only_last v = true -> lf_only_last (strip_blanks v) = true.
Proof.
  induction v as [|c v IH]; intros H; [reflexivity|]. cbn [strip_blanks].
  destruct (is_char c SP || is_char c HT) eqn:E; [|assumption].
  apply IH. cbn [lf_only_last] in H. destruct (is_char c LF) eqn:El; [|assumption].
  apply is_char_true in El. subst c. discriminate.
Qed.

Lemma strip_blanks_length v : (List.length (strip_blanks v) <= List.length v)%nat.
Proof.
  induction v as [|c v IH]; simpl; [lia|].
  destruct (is_char c SP || is_char c HT); simpl; lia.
Qed.

Lemma strip_blanks_head v :
  match strip_blanks v with
  | [] => True
  | c :: _ => c <> SP /\ c <> HT
  end.
Proof.
  induction v as [|c v IH]; [exact I|]. cbn [strip_blanks].
  destruct (is_char c SP || is_char c HT) eqn:E; [exact IH|].
  apply orb_false_iff in E as [E1 E2]. now apply is_char_false in E1, E2.
Qed.

Lemma strip_blanks_idem v : strip_blanks (strip_blanks v) = strip_blanks v.
Proof.
  pose proof (strip_blanks_head v) as H.
  destruct (strip_blanks v) as [|c v']; [reflexivity|].
  destruct H as [H1 H2]. apply is_char_false in H1, H2.
  cbn [strip_blanks]. now rewrite H1, H2.
Qed.

(** What [fgets] hands over: less than [size] characters, no NUL, and a
    newline at the end only. *)
Lemma fgets_buffer size s buf s' :
  fgets size s = Ret (Some buf) s' ->
  lf_only_last buf = true /\ (List.length buf <= size - 1)%nat /\ ~ In NUL buf.
Proof.
  unfold fgets. destruct (st_in s) as [|c i]; [discriminate|].
  pose proof (read_line_lf_only_last (size - 1) (c :: i)) as Hl.
  pose proof (read_line_length (size - 1) (c :: i)) as Hn.
  destruct (read_line (size - 1) (c :: i)) as [l r]. cbn [fst] in *.
  intros [= <- _]. split; [now apply cstr_lf_only_last|]. split.
  - pose proof (cstr_length l). lia.
  - apply cstr_no_NUL.
Qed.

(** A line longer than the buffer is cut after [size - 1] bytes. *)
Lemma fgets_cut size s a b :
  st_in s = a ++ b -> a <> [] -> List.length a = (size - 1)%nat ->
  ~ In LF a -> ~ In NUL a ->
  fgets size s = Ret (Some a) (consumed s b).
Proof.
  intros Hs Ha Hn Hl Hz. unfold fgets. rewrite Hs, <- Hn.
  rewrite read_line_full by assumption. rewrite cstr_id by assumption.
  destruct a; [congruence|reflexivity].
Qed.

(** ** Header fields, stored and looked up *)

(** X6: in a field that the parser stores the name holds no colon, the value
    does not begin with a space or a tab, neither holds a NUL, and input
    was consumed for it. *)
Theorem header_field_invariants BUFSIZ s f s' :
  read_header_field BUFSIZ s = Ret (Some f) s' ->
  ~ In ":"%char (name f) /\ ~ In NUL (name f) /\ ~ In NUL (value f)
  /\ match value f with [] => True | c :: _ => c <> SP /\ c <> HT end
  /\ (List.length (st_in s') < List.length (st_in s))%nat.
Proof.
  intros H.
  destruct (read_header_field_cstrings _ _ _ _ H) as [Hn Hv].
  pose proof (read_header_field_consumes _ _ _ _ H) as Hc.
  revert H. unfold read_header_field, bind.
  destruct (fgets_total BUFSIZ s) as [H | (buf & s1 & H)]; rewrite H; [discriminate|].
  destruct (_ || _); [discriminate|].
  destruct (strchr buf ":") as [[m p]|] eqn:E; [|discriminate].
  destruct (strchr_some _ _ _ _ E) as (post & -> & -> & Hm). cbn [tl].
  rewrite strspn_strip_blanks. intros [= <- _]. cbn [name value] in *.
  repeat split; try assumption. apply strip_blanks_head.
Qed.

Lemma header_field_invariants_witness :
  let f := mkField (chars "X-Tag") (chars "1" ++ CRLF) in
  let s' := start (chars "x-tag:2" ++ CRLF) in
  ~ In ":"%char (name f) /\ ~ In NUL (name f) /\ ~ In NUL (value f)
  /\ match value f with [] => True | c :: _ => c <> SP /\ c <> HT end
  /\ (List.length (st_in s')
      < List.length (st_in (start (chars "X-Tag:" ++ [SP; HT; SP] ++ chars "1" ++ CRLF ++ chars "x-tag:2" ++ CRLF))))%nat.
Proof.
  apply (header_field_invariants glibc_BUFSIZ
           (start (chars "X-Tag:" ++ [SP; HT; SP] ++ chars "1" ++ CRLF ++ chars "x-tag:2" ++ CRLF))
           (mkField (chars "X-Tag") (chars "1" ++ CRLF))
           (start (chars "x-tag:2" ++ CRLF))).
  vm_compute. reflexivity.
Defined.

(** X7: a stored field written back as its name, a colon and its value is
    read as the same field again. *)
Theorem header_field_round_trip BUFSIZ s f s' out calls :
  read_header_field BUFSIZ s = Ret (Some f) s' ->
  read_header_field BUFSIZ (mkState (name f ++ ":"%char :: value f) out calls)
  = Ret (Some f) (mkState [] out calls).
Proof.
  unfold read_header_field at 1. unfold bind.
  destruct (fgets_total BUFSIZ s) as [H | (buf & s1 & H)]; rewrite H; [discriminate|].
  destruct (fgets_buffer _ _ _ _ H) as (Hl & Hn & Hz).
  destruct (_ || _); [discriminate|].
  destruct (strchr buf ":") as [[m p]|] eqn:E; [|discriminate].
  destruct (strchr_some _ _ _ _ E) as (post & -> & -> & Hm). cbn [tl].
  rewrite strspn_strip_blanks. intros [= <- _]. cbn [name value].
  destruct (lf_only_last_split m (":"%char :: post) Hl) as [Hlm Hlp]; [discriminate|].
  assert (Hlp' : lf_only_last post = true) by exact Hlp.
  set (r := m ++ ":"%char :: strip_blanks post).
  assert (Hr1 : lf_only_last r = true).
  { apply lf_only_last_app; [assumption|]. cbn [lf_only_last].
    change (is_char ":" LF) with false. cbv iota.
    now apply strip_blanks_lf_only_last. }
  assert (Hr2 : (List.length r <= BUFSIZ - 1)%nat).
  { unfold r. rewrite length_app in *. cbn [List.length] in *.
    pose proof (strip_blanks_length post). lia. }
  assert (Hr3 : ~ In NUL r).
  { unfold r. rewrite in_app_iff. intros [Hin|[Hin|Hin]].
    - apply Hz. apply in_app_iff. now left.
    - discriminate.
    - apply Hz. apply in_app_iff. right. right.
      pose proof (strspn_strip_blanks post) as Hs. rewrite <- Hs in Hin.
      rewrite <- (firstn_skipn (strspn post [SP; HT]) post).
      apply in_app_iff. now right. }
  assert (Hf : fgets BUFSIZ (mkState r out calls)
               = Ret (Some r) (mkState [] out calls)).
  { unfold fgets. cbn [st_in st_out st_calls].
    rewrite (read_line_all _ _ Hr1 Hr2), (cstr_id _ Hr3).
    unfold r. destruct m; reflexivity. }
  unfold read_header_field, bind. rewrite Hf.
  assert (Hc : In ":"%char r) by (unfold r; apply in_app_iff; right; now left).
  assert (E1 : r <> [LF]).
  { intros Hr. rewrite Hr in Hc. destruct Hc as [Hc|[]]. discriminate. }
  assert (E2 : r <> CRLF).
  { intros Hr. rewrite Hr in Hc. destruct Hc as [Hc|[Hc|[]]]; discriminate. }
  rewrite (strcmp_eqb _ _ E1), (strcmp_eqb _ _ E2). cbn [orb].
  unfold r. rewrite strchr_found by assumption. cbn [tl].
  now rewrite strspn_strip_blanks, strip_blanks_idem.
Qed.

Lemma header_field_round_trip_witness :
  read_header_field glibc_BUFSIZ
    (mkState (chars "X-Tag" ++ ":"%char :: chars "1" ++ CRLF) [] [])
  = Ret (Some (mkField (chars "X-Tag") (chars "1" ++ CRLF))) (mkState [] [] []).
Proof.
  apply (header_field_round_trip glibc_BUFSIZ
           (start (chars "X-Tag:" ++ [SP; HT; SP] ++ chars "1" ++ CRLF ++ chars "x-tag:2" ++ CRLF))
           (mkField (chars "X-Tag") (chars "1" ++ CRLF))
           (start (chars "x-tag:2" ++ CRLF)) [] []).
  vm_compute. reflexivity.
Defined.

(** X8: what a lookup returns.  It is the value of the first field of the
    list whose name is the key up to letter case, and nothing when there is
    no such field; keys that differ in letter case only are looked up
    alike. *)
Theorem lookup_header_field_value_spec hd nm :
  (forall v,
      lookup_header_field_value hd nm = Some v <->
      exists pre f post,
        hd = pre ++ f :: post /\ value f = v
        /\ map tolower (name f) = map tolower nm
        /\ forall g, In g pre -> map tolower (name g) <> map tolower nm)
  /\ (lookup_header_field_value hd nm = None <->
      forall g, In g hd -> map tolower (name g) <> map tolower nm)
  /\ (forall nm', map tolower nm' = map tolower nm ->
                  lookup_header_field_value hd nm' = lookup_header_field_value hd nm).
Proof.
  split; [|split].
  - intros v. split.
    + induction hd as [|f hd IH]; [discriminate|]. cbn [lookup_header_field_value].
      destruct (strcasecmp (name f) nm =? 0) eqn:E.
      * intros [= <-]. apply Z.eqb_eq, strcasecmp_eq in E.
        exists [], f, hd. repeat split; try assumption. intros g [].
      * intros H. destruct (IH H) as (pre & f' & post & -> & Hv & Hm & Hp).
        exists (f :: pre), f', post. repeat split; try assumption.
        intros g [<-|Hg]; [|now apply Hp].
        apply Z.eqb_neq in E. now rewrite strcasecmp_eq in E.
    + intros (pre & f & post & -> & <- & Hm & Hp).
      rewrite lookup_app_none by assumption. cbn [lookup_header_field_value].
      apply strcasecmp_eq in Hm. now rewrite Hm.
  - split.
    + induction hd as [|f hd IH]; [intros _ g []|]. cbn [lookup_header_field_value].
      destruct (strcasecmp (name f) nm =? 0) eqn:E; [discriminate|].
      intros H g [<-|Hg]; [|now apply IH].
      apply Z.eqb_neq in E. now rewrite strcasecmp_eq in E.
    + apply lookup_absent.
  - intros nm' Hnm. induction hd as [|f hd IH]; [reflexivity|].
    cbn [lookup_header_field_value]. rewrite IH.
    assert (E : (strcasecmp (name f) nm' =? 0) = (strcasecmp (name f) nm =? 0)).
    { destruct (strcasecmp (name f) nm =? 0) eqn:E.
      - apply Z.eqb_eq, strcasecmp_eq in E. apply Z.eqb_eq, strcasecmp_eq. congruence.
      - apply Z.eqb_neq in E. rewrite strcasecmp_eq in E.
        apply Z.eqb_neq. rewrite strcasecmp_eq. congruence. }
    now rewrite E.
Qed.

(** ** Letter case of the method *)

Lemma ascii_upper_spec c :
  ascii_upper (ascii_upper c) = ascii_upper c
  /\ islower (ascii_upper c) = false
  /\ tolower (ascii_upper c) = tolower c
  /\ (islower c = false -> ascii_upper c = c)
  /\ is_char (ascii_upper c) SP = is_char c SP
  /\ is_char (ascii_upper c) NUL = is_char c NUL
  /\ is_char (ascii_upper c) LF = is_char c LF.
Proof.
  destruct c as [[] [] [] [] [] [] [] []]; vm_compute; repeat split; congruence.
Qed.

(** X9: [uppcase] keeps the length of the string and every character that
    is not a lower-case letter, leaves no lower-case letter, changes nothing
    when applied again, and does not change the string up to letter case. *)
Theorem uppcase_properties str :
  List.length (uppcase str) = List.length str
  /\ forallb (fun c => negb (islower c)) (uppcase str) = true
  /\ uppcase (uppcase str) = uppcase str
  /\ map tolower (uppcase str) = map tolower str
  /\ (forallb (fun c => negb (islower c)) str = true -> uppcase str = str).
Proof.
  rewrite !uppcase_spec. split; [apply length_map|].
  split; [|split; [|split]].
  - apply forallb_forall. intros c Hc. apply in_map_iff in Hc as (x & <- & _).
    destruct (ascii_upper_spec x) as (_ & -> & _). reflexivity.
  - rewrite map_map. apply map_ext. intros c.
    now destruct (ascii_upper_spec c) as (H & _).
  - rewrite map_map. apply map_ext. intros c.
    now destruct (ascii_upper_spec c) as (_ & _ & H & _).
  - intros H. rewrite <- (map_id str) at 2. apply map_ext_in.
    intros c Hc. rewrite forallb_forall in H. specialize (H c Hc).
    apply negb_true_iff in H.
    destruct (ascii_upper_spec c) as (_ & _ & _ & H' & _). now apply H'.
Qed.

Lemma uppcase_token M : token M -> token (uppcase M).
Proof.
  unfold token. rewrite uppcase_spec. intros (H1 & H2 & H3).
  repeat split; intros Hin; apply in_map_iff in Hin as (c & Hc & Hin);
    destruct (ascii_upper_spec c) as (_ & _ & _ & _ & Es & Ez & El).
  - apply H1. rewrite Hc in Es. replace c with SP in Hin; [assumption|].
    symmetry. apply is_char_true. rewrite <- Es. apply is_char_refl.
  - apply H2. rewrite Hc in Ez. replace c with NUL in Hin; [assumption|].
    symmetry. apply is_char_true. rewrite <- Ez. apply is_char_refl.
  - apply H3. rewrite Hc in El. replace c with LF in Hin; [assumption|].
    symmetry. apply is_char_true. rewrite <- El. apply is_char_refl.
Qed.

(** X10: the letter case of the method on the wire does not matter: two
    request lines that differ in the case of the method only are parsed
    into the same request, and are refused together. *)
Theorem method_case_is_ignored BUFSIZ req s1 s2 M1 M2 P T rest :
  token M1 -> token M2 -> uppcase M1 = uppcase M2 ->
  token P -> text T ->
  st_in s1 = (M1 ++ SP :: P ++ SP :: T) ++ LF :: rest ->
  st_in s2 = (M2 ++ SP :: P ++ SP :: T) ++ LF :: rest ->
  st_out s1 = st_out s2 -> st_calls s1 = st_calls s2 ->
  (List.length ((M1 ++ SP :: P ++ SP :: T) ++ [LF]) < BUFSIZ)%nat ->
  (forall r s', read_request_line BUFSIZ req s1 = Ret r s'
                <-> read_request_line BUFSIZ req s2 = Ret r s')
  /\ (exits (read_request_line BUFSIZ req s1)
      <-> exits (read_request_line BUFSIZ req s2)).
Proof.
  intros HM1 HM2 Hu HP HT Hs1 Hs2 Ho Hc Hn.
  assert (Hlen : List.length M1 = List.length M2).
  { rewrite <- (length_map ascii_upper M1), <- (length_map ascii_upper M2).
    now rewrite <- !uppcase_spec, Hu. }
  assert (Hn2 : (List.length ((M2 ++ SP :: P ++ SP :: T) ++ [LF]) < BUFSIZ)%nat).
  { rewrite !length_app in *. cbn [List.length] in *. rewrite !length_app in *.
    cbn [List.length] in *. lia. }
  rewrite (read_request_line_tokens BUFSIZ req s1 M1 P T rest HM1 HP HT Hs1 Hn).
  rewrite (read_request_line_tokens BUFSIZ req s2 M2 P T rest HM2 HP HT Hs2 Hn2).
  assert (Hcs : consumed s1 rest = consumed s2 rest)
    by (unfold consumed; now rewrite Ho, Hc).
  rewrite Hu, Hcs.
  destruct (strncasecmp (T ++ [LF]) (chars "HTTP/1.") 7 =? 0).
  - split; [tauto|]. split; intros (e & s0 & H); discriminate.
  - split; [split; discriminate|].
    split; intros _; eexists; eexists; reflexivity.
Qed.

Lemma method_case_is_ignored_witness :
  let s1 := start (chars "Get / HTTP/1.0" ++ CRLF) in
  let s2 := start (chars "gET / HTTP/1.0" ++ CRLF) in
  (forall r s', read_request_line glibc_BUFSIZ request0 s1 = Ret r s'
                <-> read_request_line glibc_BUFSIZ request0 s2 = Ret r s')
  /\ (exits (read_request_line glibc_BUFSIZ request0 s1)
      <-> exits (read_request_line glibc_BUFSIZ request0 s2)).
Proof.
  apply (method_case_is_ignored glibc_BUFSIZ request0
           (start (chars "Get / HTTP/1.0" ++ CRLF))
           (start (chars "gET / HTTP/1.0" ++ CRLF))
           (chars "Get") (chars "gET") (chars "/") (chars "HTTP/1.0" ++ [CR]) []).
  - repeat split; vm_compute; intuition discriminate.
  - repeat split; vm_compute; intuition discriminate.
  - reflexivity.
  - repeat split; vm_compute; intuition discriminate.
  - repeat split; vm_compute; intuition discriminate.
  - reflexivity.
  - reflexivity.
  - reflexivity.
  - reflexivity.
  - apply Nat.ltb_lt. vm_compute. reflexivity.
Defined.

(** ** Lines that do not fit the buffer *)

(** X11: a request line of which the first BUFSIZ - 1 bytes hold the first
    space but not the second is cut there, and the parser exits; the rest
    of the line is left unread. *)
Theorem request_line_cut_exits BUFSIZ req s M P b :
  st_in s = (M ++ SP :: P) ++ b ->
  List.length (M ++ SP :: P) = (BUFSIZ - 1)%nat ->
  ~ In SP M -> ~ In SP P -> text (M ++ SP :: P) ->
  read_request_line BUFSIZ req s
  = Exit (parse_error_on_request_line_2 M) (consumed s b).
Proof.
  intros Hs Hn HM HP [Hz Hl].
  apply read_request_line_one_space with (p := P); try assumption.
  apply fgets_cut; try assumption. now destruct M.
Qed.

Lemma request_line_cut_exits_witness :
  read_request_line 8 request0 (start (chars "GET /index.html HTTP/1.1" ++ CRLF))
  = Exit (parse_error_on_request_line_2 (chars "GET"))
         (consumed (start (chars "GET /index.html HTTP/1.1" ++ CRLF))
                   (chars "dex.html HTTP/1.1" ++ CRLF)).
Proof.
  apply (request_line_cut_exits 8 request0
           (start (chars "GET /index.html HTTP/1.1" ++ CRLF))
           (chars "GET") (chars "/in") (chars "dex.html HTTP/1.1" ++ CRLF)).
  - reflexivity.
  - reflexivity.
  - vm_compute; intuition discriminate.
  - vm_compute; intuition discriminate.
  - split; vm_compute; intuition discriminate.
Defined.

(** X12: a header line of which the first BUFSIZ - 1 bytes hold a colon but
    no newline is cut there: what came before the cut is stored as a field,
    and what comes after it is left to be read as the next line. *)
Theorem header_line_cut_is_field BUFSIZ s a b :
  st_in s = a ++ b ->
  List.length a = (BUFSIZ - 1)%nat ->
  In ":"%char a -> text a ->
  read_header_field BUFSIZ s = Ret (Some (field_of_line a)) (consumed s b).
Proof.
  intros Hs Hn Hc [Hz Hl]. unfold read_header_field, bind.
  rewrite (fgets_cut BUFSIZ s a b Hs) by (try assumption; now destruct a).
  assert (E1 : a <> [LF]) by (intros ->; apply Hl; now left).
  assert (E2 : a <> CRLF) by (intros ->; apply Hl; right; now left).
  rewrite (strcmp_eqb _ _ E1), (strcmp_eqb _ _ E2). cbn [orb].
  destruct (strchr_in _ _ Hc) as (pre & post & E & Hsplit & Hpre).
  rewrite E. cbn [tl]. unfold ret, field_of_line.
  rewrite Hsplit, split_at_colon_found by assumption.
  now rewrite strspn_strip_blanks.
Qed.

Lemma header_line_cut_is_field_witness :
  read_header_field 8 (start (chars "Host: example.org" ++ CRLF))
  = Ret (Some (field_of_line (chars "Host: e")))
        (consumed (start (chars "Host: example.org" ++ CRLF))
                  (chars "xample.org" ++ CRLF)).
Proof.
  apply (header_line_cut_is_field 8 (start (chars "Host: example.org" ++ CRLF))
           (chars "Host: e") (chars "xample.org" ++ CRLF)).
  - reflexivity.
  - reflexivity.
  - vm_compute. auto 10.
  - split; vm_compute; intuition discriminate.
Defined.

(** ** What a response does and does not do *)

Lemma writes_only_ret p {A} (a : A) : writes_only p (ret a).
Proof.
  intros s. simpl. split; [reflexivity|]. split.
  - exists []. now rewrite app_nil_r.
  - exists []. split; [reflexivity|]. intros x [].
Qed.

Lemma writes_only_log_exit p {A} e : writes_only p (@log_exit A e).
Proof.
  intros s. simpl. split; [reflexivity|]. split.
  - exists []. now rewrite app_nil_r.
  - exists []. split; [reflexivity|]. intros x [].
Qed.

Lemma writes_only_fwrite p b : writes_only p (fwrite b).
Proof.
  intros s. simpl. split; [reflexivity|]. split.
  - now exists b.
  - exists []. split; [reflexivity|]. intros x [].
Qed.

Lemma writes_only_call p c :
  c = sys_lstat p \/ c = sys_open p -> writes_only p (call c).
Proof.
  intros Hc s. simpl. split; [reflexivity|]. split.
  - exists []. now rewrite app_nil_r.
  - exists [c]. split; [reflexivity|]. now intros x [<-|[]].
Qed.

Lemma writes_only_bind p {A B} (m : M A) (k : A -> M B) :
  writes_only p m -> (forall a, writes_only p (k a)) -> writes_only p (bind m k).
Proof.
  intros Hm Hk s. unfold bind. specialize (Hm s).
  destruct (m s) as [a s1|e s1|]; [|exact Hm|exact I].
  specialize (Hk a s1). destruct Hm as (Hi & (b & Hb) & (c & Hc & Hcs)).
  destruct (k a s1) as [x s2|e s2|]; [| |exact I];
    destruct Hk as (Hi' & (b' & Hb') & (c' & Hc' & Hcs'));
    (split; [congruence|]); (split;
      [ exists (b ++ b'); rewrite Hb', Hb; now rewrite app_assoc
      | exists (c' ++ c); split;
        [ rewrite Hc', Hc; now rewrite app_assoc
        | intros x' Hx; apply in_app_iff in Hx as [Hx|Hx]; auto ] ]).
Qed.

Lemma writes_only_output_common_header_fields p w req status :
  writes_only p (output_common_header_fields w req status).
Proof.
  unfold output_common_header_fields.
  destruct (w_date w); [|apply writes_only_log_exit].
  repeat (apply writes_only_bind; [apply writes_only_fwrite|intros _]).
  apply writes_only_fwrite.
Qed.

Lemma writes_only_copy_file p BUFSIZ fuel :
  forall file, writes_only p (copy_file BUFSIZ fuel file).
Proof.
  induction fuel as [|fuel IH]; intros file; [intros s; exact I|].
  cbn [copy_file]. destruct (_ =? _)%nat; [apply writes_only_ret|].
  apply writes_only_bind; [apply writes_only_fwrite|intros _; apply IH].
Qed.

Lemma writes_only_bind_val p {A B} (Q : A -> Prop) (m : M A) (k : A -> M B) :
  writes_only p m ->
  (forall s a s', m s = Ret a s' -> Q a) ->
  (forall a, Q a -> writes_only p (k a)) ->
  writes_only p (bind m k).
Proof.
  intros Hm HQ Hk s. unfold bind. specialize (Hm s). specialize (HQ s).
  destruct (m s) as [a s1|e s1|]; [|exact Hm|exact I].
  specialize (Hk a (HQ a s1 eq_refl) s1).
  destruct Hm as (Hi & (b & Hb) & (c & Hc & Hcs)).
  destruct (k a s1) as [x s2|e s2|]; [| |exact I];
    destruct Hk as (Hi' & (b' & Hb') & (c' & Hc' & Hcs'));
    (split; [congruence|]); (split;
      [ exists (b ++ b'); rewrite Hb', Hb; now rewrite app_assoc
      | exists (c' ++ c); split;
        [ rewrite Hc', Hc; now rewrite app_assoc
        | intros x' Hx; apply in_app_iff in Hx as [Hx|Hx]; auto ] ]).
Qed.

Lemma writes_only_get_fileinfo w docroot urlpath :
  writes_only (build_fspath docroot urlpath) (get_fileinfo w docroot urlpath).
Proof.
  unfold get_fileinfo.
  apply writes_only_bind; [apply writes_only_call; now left|intros _].
  destruct (lstat w _) as [st|]; [|apply writes_only_ret].
  destruct (negb _); apply writes_only_ret.
Qed.

Lemma writes_only_do_file_response BUFSIZ w req docroot :
  writes_only (build_fspath docroot (path req))
              (do_file_response BUFSIZ w req docroot).
Proof.
  unfold do_file_response.
  apply writes_only_bind_val
    with (Q := fun info => fi_path info = build_fspath docroot (path req)).
  - apply writes_only_get_fileinfo.
  - intros s a s' H. rewrite get_fileinfo_eq in H. injection H as <- _.
    destruct (w_fs w _) as [[]|]; reflexivity.
  - intros info Hp. destruct (negb (ok info));
      [apply writes_only_output_common_header_fields|].
    apply writes_only_bind; [apply writes_only_output_common_header_fields|intros _].
    repeat (apply writes_only_bind; [apply writes_only_fwrite|intros _]).
    destruct (negb _); [|apply writes_only_ret].
    apply writes_only_bind; [apply writes_only_call; right; now rewrite Hp|intros _].
    destruct (open w (fi_path info));
      [apply writes_only_copy_file|apply writes_only_log_exit].
Qed.

(** X13: a response reads nothing from the input, adds to the output at
    its end only, and the only calls of the file system it makes are
    [lstat] and [open] on the path made of the document root, a slash and
    the path of the request. *)
Theorem response_writes_only BUFSIZ w req docroot s s' :
  final (respond_to BUFSIZ w req docroot s) = Some s' ->
  st_in s' = st_in s
  /\ (exists b, st_out s' = st_out s ++ b)
  /\ (exists c, st_calls s' = c ++ st_calls s
                /\ forall x, In x c ->
                     x = sys_lstat (docroot ++ chars "/" ++ path req)
                     \/ x = sys_open (docroot ++ chars "/" ++ path req)).
Proof.
  assert (H : writes_only (build_fspath docroot (path req))
                          (respond_to BUFSIZ w req docroot)).
  { unfold respond_to.
    destruct (_ =? 0); [apply writes_only_do_file_response|].
    destruct (_ =? 0); [apply writes_only_do_file_response|].
    destruct (_ =? 0); apply writes_only_output_common_header_fields. }
  specialize (H s).
  destruct (respond_to BUFSIZ w req docroot s) as [x s1|e s1|];
    cbn [final]; intros [= <-]; exact H.
Qed.

Lemma response_writes_only_witness :
  let req := mkRequest 1 (chars "GET") (chars "/index.html") [] None 0 in
  let s := mkState (chars "GET /next HTTP/1.1" ++ CRLF) [] [] in
  let s' := mkState (chars "GET /next HTTP/1.1" ++ CRLF)
                    (ok_header_block 1 12 (chars "Tue, 03 Nov 2026 10:00:00 GMT")
                     ++ chars "hello world!")
                    [sys_open (chars "/var/www//index.html");
                     sys_lstat (chars "/var/www//index.html")] in
  st_in s' = st_in s
  /\ (exists b, st_out s' = st_out s ++ b)
  /\ (exists c, st_calls s' = c ++ st_calls s
                /\ forall x, In x c ->
                     x = sys_lstat (chars "/var/www" ++ chars "/" ++ path req)
                     \/ x = sys_open (chars "/var/www" ++ chars "/" ++ path req)).
Proof.
  apply (response_writes_only glibc_BUFSIZ index_world
           (mkRequest 1 (chars "GET") (chars "/index.html") [] None 0)
           (chars "/var/www")
           (mkState (chars "GET /next HTTP/1.1" ++ CRLF) [] [])).
  vm_compute. reflexivity.
Defined.

Lemma copy_file_returns BUFSIZ fuel file s :
  (List.length file < fuel)%nat ->
  exists b, copy_file BUFSIZ fuel file s = Ret tt (wrote s b).
Proof.
  intros H. destruct BUFSIZ as [|n].
  - destruct fuel; [lia|]. exists []. cbn. unfold ret. now rewrite wrote_nil.
  - exists file. apply copy_file_ok; lia.
Qed.

Lemma do_file_response_gmtime_failed BUFSIZ w req docroot s :
  w_date w = None ->
  do_file_response BUFSIZ w req docroot s
  = Exit gmtime_failed (called s (sys_lstat (build_fspath docroot (path req)))).
Proof.
  intros Hd. unfold do_file_response, bind. rewrite get_fileinfo_eq.
  destruct (negb _); [unfold not_found|];
    now rewrite output_common_header_fields_gmtime.
Qed.

(** X14: a response that is written to its end begins with the status line,
    which bears the minor version of the request and one of the four
    statuses 200, 404, 405 and 501, and with the Date, Server and
    Connection fields. *)
Theorem response_begins_with_status BUFSIZ w req docroot s s' :
  respond_to BUFSIZ w req docroot s = Ret tt s' ->
  exists date status tail,
    w_date w = Some date /\ In status statuses
    /\ st_out s'
       = st_out s ++ common_header_fields (protocol_minor_version req) status date
         ++ tail.
Proof.
  destruct (w_date w) as [date|] eqn:Hd.
  - intros H. exists date.
    assert (Hf : do_file_response BUFSIZ w req docroot s = Ret tt s' ->
                 exists status tail, In status statuses
                   /\ st_out s' = st_out s
                        ++ common_header_fields (protocol_minor_version req) status date
                        ++ tail).
    { destruct (w_fs w (build_fspath docroot (path req))) as [n|] eqn:Hn.
      - destruct n as [size c r| | | | | |];
          try (rewrite do_file_response_not_found with (date := date);
               [ intros [= <-]; exists (chars "404 Not Found"), [];
                 split; [simpl; tauto | cbn [wrote called st_out]; now rewrite app_nil_r]
               | assumption | intros n' c' r'; rewrite Hn; discriminate ]).
        rewrite (do_file_response_found BUFSIZ w req docroot date size c r s Hd Hn).
        destruct (_ =? 0).
        + intros [= <-]. exists (chars "200 OK"). eexists.
          split; [simpl; tauto|]. cbn [wrote called st_out].
          unfold ok_header_block. rewrite <- ?app_assoc. reflexivity.
        + destruct r; [|discriminate].
          match goal with |- copy_file _ _ _ ?s0 = _ -> _ =>
            destruct (copy_file_returns BUFSIZ (S (List.length c)) c s0) as (b & Hb);
              [lia|]; rewrite Hb
          end.
          intros [= <-]. exists (chars "200 OK"). eexists.
          split; [simpl; tauto|]. cbn [wrote called st_out].
          unfold ok_header_block. rewrite <- ?app_assoc. reflexivity.
      - rewrite do_file_response_not_found with (date := date);
          [ intros [= <-]; exists (chars "404 Not Found"), [];
            split; [simpl; tauto | cbn [wrote called st_out]; now rewrite app_nil_r]
          | assumption | intros n' c' r'; rewrite Hn; discriminate ]. }
    assert (Hg : exists status tail, In status statuses
                   /\ st_out s' = st_out s
                        ++ common_header_fields (protocol_minor_version req) status date
                        ++ tail).
    { revert H. unfold respond_to.
      destruct (_ =? 0); [exact Hf|].
      destruct (_ =? 0); [exact Hf|].
      destruct (_ =? 0); [unfold method_not_allowed|unfold not_implemented];
        rewrite output_common_header_fields_ok with (date := date) by assumption;
        intros [= <-];
        [exists (chars "405 Method Not Allowed")|exists (chars "501 Not Implemented")];
        exists []; (split; [simpl; tauto|]);
        cbn [wrote st_out]; now rewrite app_nil_r. }
    destruct Hg as (status & tail & Hi & Ho). now exists status, tail.
  - unfold respond_to.
    repeat (destruct (_ =? 0);
            [rewrite ?do_file_response_gmtime_failed by assumption;
             unfold method_not_allowed;
             rewrite ?output_common_header_fields_gmtime by assumption;
             discriminate|]).
    unfold not_implemented.
    rewrite output_common_header_fields_gmtime by assumption. discriminate.
Qed.

Lemma response_begins_with_status_witness :
  exists date status tail,
    w_date link_world = Some date /\ In status statuses
    /\ st_out (mkState [] (common_header_fields 1 (chars "404 Not Found")
                             (chars "Tue, 03 Nov 2026 10:00:00 GMT"))
                       [sys_lstat (chars "/var/www//link")])
       = st_out (start []) ++ common_header_fields 1 status date ++ tail.
Proof.
  apply (response_begins_with_status glibc_BUFSIZ link_world
           (mkRequest 1 (chars "GET") (chars "/link") [] None 0)
           (chars "/var/www") (start [])).
  vm_compute. reflexivity.
Defined.

(** X15: the response is made from the method, the path and the minor
    version of the request; its header fields and its body play no part. *)
Theorem response_ignores_headers_and_body BUFSIZ w docroot req req' s :
  protocol_minor_version req = protocol_minor_version req' ->
  method req = method req' -> path req = path req' ->
  respond_to BUFSIZ w req docroot s = respond_to BUFSIZ w req' docroot s.
Proof.
  destruct req as [v m p h b l], req' as [v' m' p' h' b' l'].
  cbn [protocol_minor_version method path]. intros <- <- <-. reflexivity.
Qed.

Lemma response_ignores_headers_and_body_witness :
  respond_to glibc_BUFSIZ index_world post_with_body_request (chars "/var/www") (start [])
  = respond_to glibc_BUFSIZ index_world
      (mkRequest 0 (chars "POST") (chars "/form") [] None 0) (chars "/var/www") (start []).
Proof.
  apply (response_ignores_headers_and_body glibc_BUFSIZ index_world (chars "/var/www")
           post_with_body_request
           (mkRequest 0 (chars "POST") (chars "/form") [] None 0) (start []));
    reflexivity.
Defined.

(** X16: a regular file that cannot be opened: HEAD is answered with 200 and
    the size of the file all the same; for GET the header block of the
    200 response is written, and then the server exits without a body. *)
Theorem unreadable_file_response BUFSIZ w req docroot date size c s :
  w_date w = Some date ->
  w_fs w (build_fspath docroot (path req)) = Some (regular size c false) ->
  let hd := ok_header_block (protocol_minor_version req) size date in
  (method req = chars "HEAD" ->
   exists s', respond_to BUFSIZ w req docroot s = Ret tt s'
              /\ st_out s' = st_out s ++ hd)
  /\ (method req = chars "GET" ->
      exists s', respond_to BUFSIZ w req docroot s
                 = Exit (failed_to_open (build_fspath docroot (path req))) s'
                 /\ st_out s' = st_out s ++ hd).
Proof.
  intros Hd Hf hd. split; intros Hm; rewrite respond_to_get by auto;
    rewrite (do_file_response_found BUFSIZ w req docroot date size c false s Hd Hf);
    rewrite Hm.
  - eexists. split; reflexivity.
  - replace (strcmp (chars "GET") (chars "HEAD") =? 0) with false by reflexivity.
    eexists. split; reflexivity.
Qed.

Lemma unreadable_file_response_witness :
  let req := mkRequest 1 (chars "GET") (chars "/secret.txt") [] None 0 in
  let hd := ok_header_block 1 4 (chars "Tue, 03 Nov 2026 10:00:00 GMT") in
  (method req = chars "HEAD" ->
   exists s', respond_to glibc_BUFSIZ locked_world req (chars "/var/www") (start [])
              = Ret tt s'
              /\ st_out s' = st_out (start []) ++ hd)
  /\ (method req = chars "GET" ->
      exists s', respond_to glibc_BUFSIZ locked_world req (chars "/var/www") (start [])
                 = Exit (failed_to_open (build_fspath (chars "/var/www") (path req))) s'
                 /\ st_out s' = st_out (start []) ++ hd).
Proof.
  apply (unreadable_file_response glibc_BUFSIZ locked_world
           (mkRequest 1 (chars "GET") (chars "/secret.txt") [] None 0)
           (chars "/var/www") (chars "Tue, 03 Nov 2026 10:00:00 GMT")
           4 (chars "hush") (start [])).
  - reflexivity.
  - reflexivity.
Defined.

(** X17: when [gmtime] fails the server exits before the first byte of the
    response, whatever the request; for GET and HEAD the [lstat] of the
    path has been made by then. *)
Theorem gmtime_failure_writes_nothing BUFSIZ w req docroot s :
  w_date w = None ->
  exists s',
    respond_to BUFSIZ w req docroot s = Exit gmtime_failed s'
    /\ st_out s' = st_out s /\ st_in s' = st_in s
    /\ (method req = chars "GET" \/ method req = chars "HEAD" ->
        st_calls s' = sys_lstat (build_fspath docroot (path req)) :: st_calls s)
    /\ (method req <> chars "GET" -> method req <> chars "HEAD" ->
        st_calls s' = st_calls s).
Proof.
  intros Hd. unfold respond_to.
  destruct (strcmp (method req) (chars "GET") =? 0) eqn:E1.
  { apply Z.eqb_eq, strcmp_eq in E1.
    rewrite do_file_response_gmtime_failed by assumption.
    eexists. split; [reflexivity|]. repeat split. intros H. contradiction. }
  destruct (strcmp (method req) (chars "HEAD") =? 0) eqn:E2.
  { apply Z.eqb_eq, strcmp_eq in E2.
    rewrite do_file_response_gmtime_failed by assumption.
    eexists. split; [reflexivity|]. repeat split. intros _ H. contradiction. }
  apply Z.eqb_neq in E1, E2. rewrite strcmp_eq in E1, E2.
  destruct (_ =? 0); [unfold method_not_allowed|unfold not_implemented];
    rewrite output_common_header_fields_gmtime by assumption;
    (eexists; split; [reflexivity|]; repeat split; intros [H|H]; contradiction).
Qed.

Lemma gmtime_failure_writes_nothing_witness :
  let req := mkRequest 1 (chars "GET") (chars "/index.html") [] None 0 in
  exists s',
    respond_to glibc_BUFSIZ clockless_world req (chars "/var/www") (start [])
    = Exit gmtime_failed s'
    /\ st_out s' = st_out (start []) /\ st_in s' = st_in (start [])
    /\ (method req = chars "GET" \/ method req = chars "HEAD" ->
        st_calls s' = sys_lstat (build_fspath (chars "/var/www") (path req))
                      :: st_calls (start []))
    /\ (method req <> chars "GET" -> method req <> chars "HEAD" ->
        st_calls s' = st_calls (start [])).
Proof.
  apply (gmtime_failure_writes_nothing glibc_BUFSIZ clockless_world
           (mkRequest 1 (chars "GET") (chars "/index.html") [] None 0)
           (chars "/var/www") (start [])).
  reflexivity.
Defined.

(** ** The entry point *)

(** X18: [main] runs the server exactly when it is given one argument and
    that argument names a directory, a symbolic link to a directory not
    being one; it then makes one [lstat] on the document root before
    [service] runs.  The exit status is always set, and it is 0 exactly
    when [service] returned. *)
Theorem main_serves_directories_only BUFSIZ w argv s :
  (forall r,
      main BUFSIZ w argv s = served r <->
      exists prog docroot,
        argv = [prog; docroot] /\ w_fs w docroot = Some directory
        /\ r = service BUFSIZ w docroot (called s (sys_lstat docroot)))
  /\ (List.length argv <> 2%nat -> main BUFSIZ w argv s = usage)
  /\ (exit_status (main BUFSIZ w argv s) = Some 0 <->
      exists prog docroot s',
        argv = [prog; docroot] /\ w_fs w docroot = Some directory
        /\ service BUFSIZ w docroot (called s (sys_lstat docroot)) = Ret tt s')
  /\ (exit_status (main BUFSIZ w argv s) = Some 0
      \/ exit_status (main BUFSIZ w argv s) = Some 1).
Proof.
  assert (Hsplit :
    (exists prog docroot, argv = [prog; docroot]) \/
    ((forall prog docroot, argv <> [prog; docroot])
     /\ main BUFSIZ w argv s = usage /\ List.length argv <> 2%nat)).
  { destruct argv as [|a [|b [|c l]]];
      try (right; repeat split; [intros; discriminate | simpl; lia]).
    left. now exists a, b. }
  destruct Hsplit as [(prog & docroot & ->) | (Hno & Hu & Hlen)].
  - cbn [main]. unfold lstat.
    pose proof (service_total BUFSIZ w docroot (called s (sys_lstat docroot))) as Ht.
    destruct (w_fs w docroot) as [[c r| |t| | | |]|] eqn:Hf; cbn [negb S_ISDIR st_mode];
      repeat split;
      try (intros H; discriminate);
      try (intros (p' & d' & H1 & H2 & _); injection H1 as <- <-; congruence);
      try (intros (p' & d' & s' & H1 & H2 & _); injection H1 as <- <-; congruence);
      try (intros H; simpl in H; lia);
      try (right; reflexivity).
    + intros [= <-]. now exists prog, docroot.
    + intros (p' & d' & H1 & _ & ->). now injection H1 as <- <-.
    + destruct (service _ _ _ _) as [[] s'|e s'|] eqn:Hs; cbn [exit_status];
        try discriminate; try congruence.
      intros _. now exists prog, docroot, s'.
    + intros (p' & d' & s' & H1 & _ & Hs). injection H1 as <- <-.
      now rewrite Hs.
    + destruct (service _ _ _ _) as [[] s'|e s'|]; cbn [exit_status];
        [now left | now right | congruence].
  - rewrite Hu. split; [|split; [|split]].
    + intros r. split; [discriminate|].
      intros (p' & d' & H1 & _). exfalso. now apply (Hno p' d').
    + reflexivity.
    + cbn [exit_status]. split; [discriminate|].
      intros (p' & d' & s' & H1 & _). exfalso. now apply (Hno p' d').
    + now right.
Qed.

(** A document root given as a symbolic link to a directory is refused. *)
Example main_refuses_linked_docroot :
  main glibc_BUFSIZ locked_world [chars "r3u_http"; chars "/srv/www"]
       (start head_missing_input)
  = docroot_is_not_a_directory (chars "/srv/www")
  /\ exists s',
       main glibc_BUFSIZ locked_world [chars "r3u_http"; chars "/var/www"]
            (start head_missing_input)
       = served (Ret tt s')
       /\ st_calls s' = [sys_lstat (chars "/var/www//missing.txt");
                         sys_lstat (chars "/var/www")].
Proof. split; [vm_compute; reflexivity|]. eexists. split; vm_compute; reflexivity. Qed.

(** ** Bytes that follow a request *)

Lemma read_line_frame n s more :
  snd (read_line n s) <> [] \/ In LF (fst (read_line n s)) ->
  read_line n (s ++ more) = (fst (read_line n s), snd (read_line n s) ++ more).
Proof.
  revert s. induction n as [|n IH]; intros s H.
  - destruct s; cbn [read_line fst snd] in *; [|reflexivity].
    destruct H as [H|[]]. congruence.
  - destruct s as [|c s]; cbn [read_line fst snd app] in *.
    + destruct H as [H|[]]. congruence.
    + destruct (is_char c LF) eqn:E; [reflexivity|].
      specialize (IH s). destruct (read_line n s) as [l r]. cbn [fst snd] in *.
      rewrite IH; [reflexivity|].
      destruct H as [H|[H|H]]; [now left | | now right].
      apply is_char_false in E. congruence.
Qed.

Lemma cstr_incl l c : In c (cstr l) -> In c l.
Proof.
  induction l as [|x l IH]; [tauto|]. cbn [cstr].
  destruct (is_char x NUL); [intros []|]. intros [H|H]; [now left|right; auto].
Qed.

Lemma fgets_frame size s buf s' more :
  fgets size s = Ret (Some buf) s' ->
  st_in s' <> [] \/ In LF buf ->
  fgets size (extend s more) = Ret (Some buf) (extend s' more).
Proof.
  unfold fgets, extend. cbn [st_in st_out st_calls].
  destruct (st_in s) as [|c i] eqn:Hs; [discriminate|].
  pose proof (read_line_frame (size - 1) (c :: i) more) as Hf.
  destruct (read_line (size - 1) (c :: i)) as [l r] eqn:Hl. cbn [fst snd] in Hf.
  intros [= <- <-] H. cbn [st_in st_out st_calls] in *.
  change ((c :: i) ++ more) with (c :: i ++ more) in Hf.
  change ((c :: i) ++ more) with (c :: i ++ more).
  rewrite Hf; [reflexivity|].
  destruct H as [H|H]; [now left|right; now apply cstr_incl].
Qed.

Lemma read_header_field_eof BUFSIZ s :
  st_in s = [] ->
  read_header_field BUFSIZ s = Exit failed_to_read_request_header_field s.
Proof. intros H. unfold read_header_field, bind. now rewrite fgets_eof. Qed.

Lemma read_header_field_frame BUFSIZ s more :
  (forall s', read_header_field BUFSIZ s = Ret None s' ->
              read_header_field BUFSIZ (extend s more) = Ret None (extend s' more))
  /\ (forall f s', read_header_field BUFSIZ s = Ret (Some f) s' -> st_in s' <> [] ->
                   read_header_field BUFSIZ (extend s more)
                   = Ret (Some f) (extend s' more)).
Proof.
  unfold read_header_field, bind.
  destruct (fgets_total BUFSIZ s) as [H | (buf & s1 & H)]; rewrite H;
    [split; intros; discriminate|].
  pose proof (fgets_frame BUFSIZ s buf s1 more H) as Hf.
  destruct ((strcmp buf [LF] =? 0) || (strcmp buf CRLF =? 0)) eqn:E.
  - split; [|intros; discriminate]. intros s' [= <-].
    rewrite Hf, E; [reflexivity|]. right.
    apply orb_true_iff in E as [E|E]; apply Z.eqb_eq, strcmp_eq in E; subst buf.
    + now left.
    + right. now left.
  - destruct (strchr buf ":") as [[m p]|] eqn:Ec; [|split; intros; discriminate].
    split; [intros; discriminate|]. intros f s' [= <- <-] Hne.
    rewrite Hf by now left. now rewrite E, Ec.
Qed.

Lemma read_header_fields_frame BUFSIZ more fuel :
  forall hd s hds s',
    read_header_fields BUFSIZ fuel hd s = Ret hds s' ->
    read_header_fields BUFSIZ fuel hd (extend s more) = Ret hds (extend s' more).
Proof.
  induction fuel as [|fuel IH]; intros hd s hds s' H; [discriminate|].
  cbn [read_header_fields] in *. unfold bind in *.
  destruct (read_header_field_frame BUFSIZ s more) as [Hnone Hsome].
  destruct (read_header_field BUFSIZ s) as [[f|] s1|e s1|] eqn:E; try discriminate.
  - assert (Hne : st_in s1 <> []).
    { intros Hnil. destruct fuel as [|fuel']; [discriminate|].
      cbn [read_header_fields] in H. unfold bind in H.
      now rewrite read_header_field_eof in H. }
    rewrite (Hsome f s1 eq_refl Hne). now apply IH.
  - injection H as <- <-. now rewrite (Hnone s1 eq_refl).
Qed.

Lemma read_header_fields_mono BUFSIZ fuel :
  forall fuel' hd s hds s',
    read_header_fields BUFSIZ fuel hd s = Ret hds s' -> (fuel <= fuel')%nat ->
    read_header_fields BUFSIZ fuel' hd s = Ret hds s'.
Proof.
  induction fuel as [|fuel IH]; intros fuel' hd s hds s' H Hle; [discriminate|].
  destruct fuel' as [|fuel']; [lia|].
  cbn [read_header_fields] in *. unfold bind in *.
  destruct (read_header_field BUFSIZ s) as [[f|] s1|e s1|]; try discriminate.
  - apply IH with (fuel' := fuel') in H; [assumption|lia].
  - assumption.
Qed.

Lemma read_headers_frame BUFSIZ s hd s' more :
  read_headers BUFSIZ s = Ret hd s' ->
  read_headers BUFSIZ (extend s more) = Ret hd (extend s' more).
Proof.
  unfold read_headers. intros H.
  apply read_header_fields_frame with (more := more) in H.
  apply read_header_fields_mono with (fuel' := S (List.length (st_in (extend s more)))) in H;
    [assumption|].
  cbn [extend st_in]. rewrite length_app. lia.
Qed.

Lemma read_request_line_frame BUFSIZ req s r s' more :
  read_request_line BUFSIZ req s = Ret r s' -> st_in s' <> [] ->
  read_request_line BUFSIZ req (extend s more) = Ret r (extend s' more).
Proof.
  unfold read_request_line, bind.
  destruct (fgets_total BUFSIZ s) as [H | (buf & s1 & H)]; rewrite H; [discriminate|].
  pose proof (fgets_frame BUFSIZ s buf s1 more H) as Hf.
  destruct (strchr buf SP) as [[m p]|] eqn:E1; [|discriminate].
  destruct (strchr (tl p) SP) as [[pa p']|] eqn:E2; [|discriminate].
  destruct (negb _) eqn:E3; [discriminate|].
  intros [= <- <-] Hne. rewrite Hf by now left. now rewrite E1, E2, E3.
Qed.

(** X19: the bytes that follow a request take no part in its parsing: with
    any bytes added after the input, the parser returns the same request
    and leaves those bytes unread after what it left before. *)
Theorem read_request_frame BUFSIZ s req s' more :
  read_request BUFSIZ s = Ret req s' ->
  read_request BUFSIZ (extend s more) = Ret req (extend s' more).
Proof.
  intros H.
  destruct (read_request_line BUFSIZ request0 s) as [req1 s1|e s1|] eqn:H1;
    try (unfold read_request, bind in H; rewrite H1 in H; discriminate).
  destruct (read_headers BUFSIZ s1) as [hd s2|e s2|] eqn:H2;
    try (unfold read_request, bind in H; rewrite H1, H2 in H; discriminate).
  assert (Hne : st_in s1 <> []).
  { intros Hnil. unfold read_headers in H2. rewrite Hnil in H2.
    cbn [List.length read_header_fields] in H2. unfold bind in H2.
    now rewrite read_header_field_eof in H2. }
  pose proof (read_request_line_frame _ _ _ _ _ more H1 Hne) as H1'.
  pose proof (read_headers_frame _ _ _ _ more H2) as H2'.
  rewrite (read_request_after_headers BUFSIZ s req1 s1 hd s2 H1 H2) in H.
  rewrite (read_request_after_headers BUFSIZ _ req1 _ hd _ H1' H2').
  cbv zeta in *.
  destruct (lookup_header_field_value hd (chars "Content-Length")) as [v|].
  - destruct (atol v <? 0); [discriminate|].
    destruct (atol v =? 0); [now injection H as <- <-|].
    destruct (atol v >? MAX_REQUEST_BODY_LENGTH); [discriminate|].
    destruct (List.length (st_in s2) <? Z.to_nat (atol v))%nat eqn:E; [discriminate|].
    apply Nat.ltb_ge in E. injection H as <- <-.
    cbn [extend st_in st_out st_calls consumed].
    assert (E' : (List.length (st_in s2 ++ more) <? Z.to_nat (atol v))%nat = false)
      by (apply Nat.ltb_ge; rewrite length_app; lia).
    rewrite E'.
    rewrite firstn_app, skipn_app.
    replace (Z.to_nat (atol v) - List.length (st_in s2))%nat with 0%nat by lia.
    cbn [firstn skipn]. now rewrite app_nil_r.
  - now injection H as <- <-.
Qed.

Lemma read_request_frame_witness :
  read_request glibc_BUFSIZ
    (extend (start post_with_body_input) (chars "GET /next HTTP/1.0" ++ CRLF))
  = Ret post_with_body_request
        (extend (start (chars ", world")) (chars "GET /next HTTP/1.0" ++ CRLF)).
Proof.
  apply (read_request_frame glibc_BUFSIZ (start post_with_body_input)
           post_with_body_request (start (chars ", world"))
           (chars "GET /next HTTP/1.0" ++ CRLF)).
  vm_compute. reflexivity.
Defined.

(** ** Repeated and cut fields *)

(** X20: when several header lines bear the name Content-Length, in any
    letter case, the length of the request is read from the last of them on
    the wire. *)
Theorem last_content_length_decides BUFSIZ s req1 s1 ls t rest pre f post req s' :
  read_request_line BUFSIZ request0 s = Ret req1 s1 ->
  Forall (header_line BUFSIZ) ls ->
  t = [LF] \/ t = CRLF -> (2 < BUFSIZ)%nat ->
  st_in s1 = List.concat ls ++ t ++ rest ->
  map field_of_line ls = pre ++ f :: post ->
  map tolower (name f) = chars "content-length" ->
  (forall g, In g post -> map tolower (name g) <> chars "content-length") ->
  read_request BUFSIZ s = Ret req s' ->
  length req = atol (value f)
  /\ rest = body_bytes req ++ st_in s'.
Proof.
  intros H1 Hall Ht Hn Hs Hsplit Hf Hpost Hr.
  assert (H2 : read_headers BUFSIZ s1
               = Ret (rev (map field_of_line ls)) (consumed s1 rest)).
  { unfold read_headers.
    rewrite (read_header_fields_lines BUFSIZ ls _ [] s1 t rest Hall Ht Hn Hs).
    - now rewrite app_nil_r.
    - pose proof (header_lines_length BUFSIZ ls Hall). rewrite Hs, length_app. lia. }
  rewrite (read_request_after_headers BUFSIZ s req1 s1 _ _ H1 H2) in Hr.
  rewrite (lookup_last_appearance _ (chars "Content-Length") pre f post Hsplit) in Hr
    by assumption.
  cbv zeta in Hr.
  destruct (atol (value f) <? 0); [discriminate|].
  destruct (atol (value f) =? 0).
  - injection Hr as <- <-. split; reflexivity.
  - destruct (_ >? _); [discriminate|].
    destruct (_ <? _)%nat; [discriminate|].
    injection Hr as <- <-. cbn [length body_bytes body consumed st_in].
    split; [reflexivity|]. now rewrite firstn_skipn.
Qed.

Lemma last_content_length_decides_witness :
  length post_with_body_request
  = atol (value (mkField (chars "content-length") (chars "5" ++ CRLF)))
  /\ chars "hello, world"
     = body_bytes post_with_body_request ++ st_in (start (chars ", world")).
Proof.
  apply (last_content_length_decides glibc_BUFSIZ (start post_with_body_input)
           (mkRequest 0 (chars "POST") (chars "/form") [] None 0)
           (start (chars "Content-Length: 3" ++ CRLF ++ chars "content-length: 5"
                   ++ CRLF ++ CRLF ++ chars "hello, world"))
           [chars "Content-Length: 3" ++ CRLF; chars "content-length: 5" ++ CRLF]
           CRLF (chars "hello, world")
           [mkField (chars "Content-Length") (chars "3" ++ CRLF)]
           (mkField (chars "content-length") (chars "5" ++ CRLF)) []
           post_with_body_request (start (chars ", world"))).
  - vm_compute. reflexivity.
  - repeat constructor.
    + exists (chars "Content-Length: 3" ++ [CR]). repeat split;
        try (vm_compute; intuition discriminate).
      apply Nat.ltb_lt. vm_compute. reflexivity.
    + exists (chars "content-length: 5" ++ [CR]). repeat split;
        try (vm_compute; intuition discriminate).
      apply Nat.ltb_lt. vm_compute. reflexivity.
  - now right.
  - apply Nat.ltb_lt. vm_compute. reflexivity.
  - reflexivity.
  - reflexivity.
  - reflexivity.
  - intros g [].
  - vm_compute. reflexivity.
Defined.

Lemma cstr_stops a x : ~ In NUL a -> cstr (a ++ NUL :: x) = a.
Proof.
  induction a as [|c a IH]; intros H; [reflexivity|].
  cbn [app cstr]. destruct (is_char c NUL) eqn:E.
  - apply is_char_true in E. exfalso. apply H. now left.
  - f_equal. apply IH. intros Hin. apply H. now right.
Qed.

(** X21: a NUL within a header line ends the field there: what follows it
    up to the newline is taken from the input and dropped, the newline
    with it. *)
Theorem nul_ends_header_field BUFSIZ s a junk rest :
  st_in s = (a ++ NUL :: junk) ++ LF :: rest ->
  In ":"%char a -> text a -> ~ In LF junk ->
  (List.length ((a ++ NUL :: junk) ++ [LF]) < BUFSIZ)%nat ->
  read_header_field BUFSIZ s = Ret (Some (field_of_line a)) (consumed s rest).
Proof.
  intros Hs Hc [Hz Hl] Hj Hn.
  assert (Hf : fgets BUFSIZ s = Ret (Some a) (consumed s rest)).
  { unfold fgets. rewrite Hs. rewrite length_app in Hn. cbn [List.length] in Hn.
    rewrite read_line_whole.
    - replace ((a ++ NUL :: junk) ++ [LF]) with (a ++ NUL :: (junk ++ [LF]))
        by (now rewrite <- app_assoc).
      rewrite cstr_stops by assumption. destruct a; reflexivity.
    - rewrite in_app_iff. intros [H|[H|H]]; [auto|discriminate|auto].
    - lia. }
  unfold read_header_field, bind. rewrite Hf.
  assert (E1 : a <> [LF]) by (intros ->; apply Hl; now left).
  assert (E2 : a <> CRLF) by (intros ->; apply Hl; right; now left).
  rewrite (strcmp_eqb _ _ E1), (strcmp_eqb _ _ E2). cbn [orb].
  destruct (strchr_in _ _ Hc) as (pre & post & E & Hsplit & Hpre).
  rewrite E. cbn [tl]. unfold ret, field_of_line.
  rewrite Hsplit, split_at_colon_found by assumption.
  now rewrite strspn_strip_blanks.
Qed.

Lemma nul_ends_header_field_witness :
  read_header_field glibc_BUFSIZ
    (start ((chars "Host: a" ++ NUL :: chars ".example.org" ++ [CR]) ++ LF :: chars "next"))
  = Ret (Some (field_of_line (chars "Host: a")))
        (consumed (start ((chars "Host: a" ++ NUL :: chars ".example.org" ++ [CR])
                          ++ LF :: chars "next"))
                  (chars "next")).
Proof.
  apply (nul_ends_header_field glibc_BUFSIZ
           (start ((chars "Host: a" ++ NUL :: chars ".example.org" ++ [CR])
                   ++ LF :: chars "next"))
           (chars "Host: a") (chars ".example.org" ++ [CR]) (chars "next")).
  - reflexivity.
  - vm_compute. auto 10.
  - split; vm_compute; intuition discriminate.
  - vm_compute; intuition discriminate.
  - apply Nat.ltb_lt. vm_compute. reflexivity.
Defined.
